(** * GlyphMind request router: a shallow embedding of [router/request_router.py]

    The Python classes of the module are embedded one Rocq module per class.
    Dictionaries are [gmap]s, Python integers are [Z], Python floats are the
    kernel's binary64 floats, and a [datetime] is the number of microseconds
    it denotes (the resolution of the Python type), so that comparison and
    subtraction of a [timedelta] are exact integer arithmetic. *)

From Stdlib Require Import ZArith Uint63 PrimFloat.
From stdpp Require Import gmap strings list.

Local Open Scope Z_scope.

(** ** Enumerations *)

Module RequestType.
Inductive t := CHAT | SEARCH | KNOWLEDGE | STATUS | ADMIN.

#[global] Instance eq_dec : EqDecision t.
Proof. solve_decision. Defined.

Definition value (ty : t) : string :=
  match ty with
  | CHAT => "chat"
  | SEARCH => "search"
  | KNOWLEDGE => "knowledge"
  | STATUS => "status"
  | ADMIN => "admin"
  end.
End RequestType.

Module Priority.
Inductive t := LOW | NORMAL | HIGH | CRITICAL.

#[global] Instance eq_dec : EqDecision t.
Proof. solve_decision. Defined.

Definition value (p : t) : Z :=
  match p with
  | LOW => 1
  | NORMAL => 2
  | HIGH => 3
  | CRITICAL => 4
  end.

Definition name (p : t) : string :=
  match p with
  | LOW => "LOW"
  | NORMAL => "NORMAL"
  | HIGH => "HIGH"
  | CRITICAL => "CRITICAL"
  end.

(** The enum call [Priority(v)]: the member of value [v], and [None] where
    Python raises [ValueError]. *)
Definition of_value (v : Z) : option t :=
  match v with
  | 1 => Some LOW
  | 2 => Some NORMAL
  | 3 => Some HIGH
  | 4 => Some CRITICAL
  | _ => None
  end.
End Priority.

(** ** Time *)

(** A [datetime], in microseconds. *)
Abbreviation datetime := Z.

(** [timedelta(minutes=m)]. *)
Definition timedelta_minutes (m : Z) : Z := m * 60000000.

(** ** Data classes *)

Module RequestContext.
Record t := {
  request_id : string;
  request_type : RequestType.t;
  priority : Priority.t;
  user_id : option string;
  session_id : option string;
  timestamp : datetime;
  metadata : option (gmap string string);
}.

(** The assignment [context.priority = p]. *)
Definition set_priority (p : Priority.t) (c : t) : t :=
  {| request_id := request_id c; request_type := request_type c;
     priority := p; user_id := user_id c; session_id := session_id c;
     timestamp := timestamp c; metadata := metadata c |}.
End RequestContext.

(** ** RateLimiter *)

Module RateLimiter.
Record t := { requests : gmap string (list datetime) }.

(** [RateLimiter()] *)
Definition init : t := {| requests := ∅ |}.

(** The list comprehension [[r for r in l if r > window_start]]. *)
Definition recent (window_start : datetime) (l : list datetime) : list datetime :=
  filter (λ req_time, window_start < req_time) l.

(** [is_allowed]; [now] is the value [datetime.now()] takes in the call.
    The dictionary entry of [key] is rewritten by the purge on both paths,
    and extended by [now] only when the call admits. *)
Definition is_allowed (now : datetime) (key : string) (limit : Z)
    (window_minutes : Z) (self : t) : bool * t :=
  let window_start := now - timedelta_minutes window_minutes in
  let cleaned :=
    match requests self !! key with
    | Some l => recent window_start l
    | None => []
    end in
  if limit <=? Z.of_nat (length cleaned)
  then (false, {| requests := <[key := cleaned]> (requests self) |})
  else (true, {| requests := <[key := cleaned ++ [now]]> (requests self) |}).

(** [get_remaining]: the same purge on a copy; the dictionary is not
    written. *)
Definition get_remaining (now : datetime) (key : string) (limit : Z)
    (window_minutes : Z) (self : t) : Z :=
  let window_start := now - timedelta_minutes window_minutes in
  match requests self !! key with
  | None => limit
  | Some l => Z.max 0 (limit - Z.of_nat (length (recent window_start l)))
  end.

(** The admissions recorded for [key] that lie in the window ending at
    [now]. *)
Definition in_window (now : datetime) (key : string) (window_minutes : Z)
    (self : t) : list datetime :=
  recent (now - timedelta_minutes window_minutes)
         (default [] (requests self !! key)).

(** Successive calls of [is_allowed] under one limit and window, each with
    the clock reading and the key of the call; the verdicts are dropped. *)
Fixpoint replay (calls : list (datetime * string)) (limit window_minutes : Z)
    (self : t) : t :=
  match calls with
  | [] => self
  | (now, key) :: calls' =>
      replay calls' limit window_minutes
             (is_allowed now key limit window_minutes self).2
  end.
End RateLimiter.

(** ** Handlers and their environment *)

(** The exceptions that travel through the router.  Each constructor stands
    for one [raise] of the module (the Python class and message are given),
    or for what an awaited handler raised. *)
Inductive Error :=
| NoRouteFound (ty : RequestType.t)
    (* ValueError("No route found for request type: ...") *)
| InvalidPriority (v : Z)
    (* ValueError raised by the enum call Priority(v) *)
| RateLimitExceeded (remaining : Z)
    (* Exception("Rate limit exceeded. Try again later. Remaining: ...") *)
| HandlerNotFound (handler : string)
    (* ValueError("Handler not found: ...") *)
| TimeoutError
    (* asyncio.TimeoutError: the deadline of wait_for expired *)
| HandlerError (detail : string)
    (* any other Exception raised inside the handler *)
| AllRetryAttemptsFailed.
    (* Exception("All retry attempts failed") *)

(** The clause [except asyncio.TimeoutError] selects on the class. *)
Definition is_timeout (e : Error) : bool :=
  match e with
  | TimeoutError => true
  | _ => false
  end.

Inductive Result (A : Type) :=
| Ok (a : A)
| Raise (e : Error).
Arguments Ok {A} a.
Arguments Raise {A} e.

(** A handler is an opaque collaborator.  [h context timeout i] is what
    [await asyncio.wait_for(h(context), timeout=timeout)] produces the
    [i]-th time a handler is awaited in the run: a result, or the
    exception that reaches the [except] clauses ([TimeoutError] when the
    deadline expires first).  Signals that are not [Exception]s (task
    cancellation, interpreter exit) are outside the model. *)
Definition Handler (Any : Type) : Type :=
  RequestContext.t → Z → nat → Result Any.

Inductive Event :=
| Invoke (i : nat)       (* the [i]-th awaited handler invocation *)
| Sleep (seconds : Z).   (* [await asyncio.sleep(seconds)] *)

(** The seconds spent in [asyncio.sleep] according to a log. *)
Fixpoint slept (events : list Event) : Z :=
  match events with
  | [] => 0
  | Sleep seconds :: events' => seconds + slept events'
  | Invoke _ :: events' => slept events'
  end.

(** What the router reads from and does to its surroundings: the two
    clocks, as the successive values their calls return, the count of
    handler invocations, and the log of invocations and sleeps. *)
Module World.
Record t := {
  time_time : nat → float;
  time_reads : nat;
  datetime_now : nat → datetime;
  now_reads : nat;
  awaited : nat;
  events : list Event;
}.

(** [time.time()] *)
Definition read_time (w : t) : float * t :=
  (time_time w (time_reads w),
   {| time_time := time_time w; time_reads := S (time_reads w);
      datetime_now := datetime_now w; now_reads := now_reads w;
      awaited := awaited w; events := events w |}).

(** [datetime.now()] *)
Definition read_now (w : t) : datetime * t :=
  (datetime_now w (now_reads w),
   {| time_time := time_time w; time_reads := time_reads w;
      datetime_now := datetime_now w; now_reads := S (now_reads w);
      awaited := awaited w; events := events w |}).

(** [await asyncio.wait_for(handler(context), timeout=timeout_seconds)] *)
Definition await {Any} (handler : Handler Any) (context : RequestContext.t)
    (timeout_seconds : Z) (w : t) : Result Any * t :=
  (handler context timeout_seconds (awaited w),
   {| time_time := time_time w; time_reads := time_reads w;
      datetime_now := datetime_now w; now_reads := now_reads w;
      awaited := S (awaited w);
      events := events w ++ [Invoke (awaited w)] |}).

(** [await asyncio.sleep(seconds)] *)
Definition sleep (seconds : Z) (w : t) : t :=
  {| time_time := time_time w; time_reads := time_reads w;
     datetime_now := datetime_now w; now_reads := now_reads w;
     awaited := awaited w;
     events := events w ++ [Sleep seconds] |}.
End World.

(** ** RequestQueue *)

(** [asyncio.Queue] as the standard library defines it: a deque, bounded
    when [maxsize] is positive and unbounded otherwise. *)
Module AsyncioQueue.
Section Queue.
Context {A : Type}.

Record t := { maxsize : Z; items : list A }.

(** [asyncio.Queue(maxsize=n)] *)
Definition init (n : Z) : t := {| maxsize := n; items := [] |}.

Definition qsize (q : t) : Z := Z.of_nat (length (items q)).

Definition empty (q : t) : bool :=
  match items q with
  | [] => true
  | _ => false
  end.

Definition full (q : t) : bool :=
  if maxsize q <=? 0 then false else maxsize q <=? qsize q.

(** [put_nowait] on a queue that is not full. *)
Definition push (x : A) (q : t) : t :=
  {| maxsize := maxsize q; items := items q ++ [x] |}.

(** [get_nowait] on a queue that is not empty. *)
Definition pop (q : t) : option (A * t) :=
  match items q with
  | [] => None
  | x :: rest => Some (x, {| maxsize := maxsize q; items := rest |})
  end.
End Queue.
Arguments t : clear implicits.
End AsyncioQueue.

(** The state of a coroutine call: it has returned, or it is suspended on
    an event that only another task can produce. *)
Inductive Awaited (A : Type) :=
| Returned (a : A)
| Suspended.
Arguments Returned {A} a.
Arguments Suspended {A}.

Module RequestQueue.
Section Queue.
Context {Any : Type}.

Definition Item : Type := RequestContext.t * Handler Any.

Record t := {
  max_size : Z;
  queues : Priority.t → AsyncioQueue.t Item;
}.

(** [RequestQueue(max_size)]: every level gets [max_size // 4]. *)
Definition init (max_size : Z) : t :=
  {| max_size := max_size;
     queues := λ _, AsyncioQueue.init (max_size / 4) |}.

Definition set_queue (p : Priority.t) (q : AsyncioQueue.t Item) (self : t) : t :=
  {| max_size := max_size self;
     queues := λ p', if decide (p' = p) then q else queues self p' |}.

(** [put].  [await queue.put(item)] waits for a free slot when the
    level is full; [asyncio.QueueFull] is raised by [put_nowait] only,
    so the [except] clause that returns [False] is never entered. *)
Definition put (context : RequestContext.t) (handler : Handler Any)
    (self : t) : Awaited (bool * t) :=
  let queue := queues self (RequestContext.priority context) in
  if AsyncioQueue.full queue then Suspended
  else Returned (true,
         set_queue (RequestContext.priority context)
                   (AsyncioQueue.push (context, handler) queue) self).

(** The loop of [get] over the levels still to poll.  [queue.get()] on
    a level that is not empty completes at once, inside the 0.1 s
    deadline. *)
Fixpoint get_from (levels : list Priority.t) (self : t) : option Item * t :=
  match levels with
  | [] => (None, self)
  | priority :: levels' =>
      let queue := queues self priority in
      if AsyncioQueue.empty queue then get_from levels' self
      else match AsyncioQueue.pop queue with
           | Some (item, queue') => (Some item, set_queue priority queue' self)
           | None => get_from levels' self
           end
  end.

Definition get (self : t) : option Item * t :=
  get_from [Priority.CRITICAL; Priority.HIGH; Priority.NORMAL; Priority.LOW] self.

(** The level [p] after its head has been taken. *)
Definition tail_of (self : t) (p : Priority.t) : AsyncioQueue.t Item :=
  {| AsyncioQueue.maxsize := AsyncioQueue.maxsize (queues self p);
     AsyncioQueue.items := tail (AsyncioQueue.items (queues self p)) |}.

(** [n] successive calls of [get], stopping at the first that finds
every level empty; the items in the order they were returned. *)
Fixpoint drain (n : nat) (self : t) : list Item * t :=
  match n with
  | O => ([], self)
  | S n' =>
      match get self with
      | (Some item, self') =>
          let '(rest, self'') := drain n' self' in (item :: rest, self'')
      | (None, self') => ([], self')
      end
  end.

(** [size()], by level. *)
Definition size (self : t) (p : Priority.t) : Z :=
  AsyncioQueue.qsize (queues self p).

(** The number of queued items, all levels together. *)
Definition total_size (self : t) : Z :=
  size self Priority.CRITICAL + size self Priority.HIGH
  + size self Priority.NORMAL + size self Priority.LOW.

(** The queues that occur: a fresh [RequestQueue(max_size)], and what a
    [put] that returns and a [get] make of one that occurs. *)
Inductive reachable (max_size : Z) : t → Prop :=
| reachable_init : reachable max_size (init max_size)
| reachable_put self context handler b self' :
    reachable max_size self →
    put context handler self = Returned (b, self') →
    reachable max_size self'
| reachable_get self :
    reachable max_size self → reachable max_size (get self).2.
End Queue.
Arguments t : clear implicits.
Arguments Item : clear implicits.
End RequestQueue.

(** ** Floats *)

(** The conversion of a Python integer to a float, exact below 2^53 in
    absolute value (the counters of the router stay far below). *)
Definition float_of_int (z : Z) : float :=
  match z with
  | Z0 => PrimFloat.zero
  | Zpos _ => PrimFloat.of_uint63 (Uint63.of_Z z)
  | Zneg _ => PrimFloat.opp (PrimFloat.of_uint63 (Uint63.of_Z (- z)))
  end.

(** True division [a / b] of two integers. *)
Definition int_truediv (a b : Z) : float :=
  PrimFloat.div (float_of_int a) (float_of_int b).

(** ** Rules and statistics *)

Module RouteRule.
Record t := {
  name : string;
  (** [None] when the predicate raises. *)
  condition : RequestContext.t → option bool;
  handler : string;
  priority_boost : Z;
  rate_limit : option Z;
  timeout_seconds : Z;
  retry_attempts : Z;
  metadata : option (gmap string string);
}.
End RouteRule.

Module RequestStats.
Record t := {
  total_requests : Z;
  successful_requests : Z;
  failed_requests : Z;
  average_response_time : float;
  requests_by_type : gmap string Z;
  requests_by_priority : gmap string Z;
  last_reset : datetime;
}.

(** [RequestStats()], created at [now]. *)
Definition init (now : datetime) : t :=
  {| total_requests := 0; successful_requests := 0; failed_requests := 0;
     average_response_time := PrimFloat.zero;
     requests_by_type := ∅; requests_by_priority := ∅;
     last_reset := now |}.

(** The three statements that open the [try] block of [route_request]. *)
Definition seen (context : RequestContext.t) (s : t) : t :=
  let type_key := RequestType.value (RequestContext.request_type context) in
  let prio_key := Priority.name (RequestContext.priority context) in
  {| total_requests := total_requests s + 1;
     successful_requests := successful_requests s;
     failed_requests := failed_requests s;
     average_response_time := average_response_time s;
     requests_by_type :=
       <[type_key := default 0 (requests_by_type s !! type_key) + 1]>
         (requests_by_type s);
     requests_by_priority :=
       <[prio_key := default 0 (requests_by_priority s !! prio_key) + 1]>
         (requests_by_priority s);
     last_reset := last_reset s |}.

(** [successful_requests += 1] *)
Definition succeeded (s : t) : t :=
  {| total_requests := total_requests s;
     successful_requests := successful_requests s + 1;
     failed_requests := failed_requests s;
     average_response_time := average_response_time s;
     requests_by_type := requests_by_type s;
     requests_by_priority := requests_by_priority s;
     last_reset := last_reset s |}.

(** [failed_requests += 1] *)
Definition failed (s : t) : t :=
  {| total_requests := total_requests s;
     successful_requests := successful_requests s;
     failed_requests := failed_requests s + 1;
     average_response_time := average_response_time s;
     requests_by_type := requests_by_type s;
     requests_by_priority := requests_by_priority s;
     last_reset := last_reset s |}.

(** The sum of the counters of a breakdown by type or by priority. *)
Definition breakdown_total (m : gmap string Z) : Z :=
  map_fold (λ _ count acc, count + acc) 0 m.

Definition set_average (avg : float) (s : t) : t :=
  {| total_requests := total_requests s;
     successful_requests := successful_requests s;
     failed_requests := failed_requests s;
     average_response_time := avg;
     requests_by_type := requests_by_type s;
     requests_by_priority := requests_by_priority s;
     last_reset := last_reset s |}.
End RequestStats.

(** An entry of the "rules" list of [router/router_rules.json], each field
    as [rule_data.get] finds it: [None] for a key that is absent (for
    [rate_limit] and [metadata], also for [null]), a value of the field's
    type otherwise. *)
Module RuleData.
Record t := {
  name : option string;
  handler : option string;
  priority_boost : option Z;
  rate_limit : option Z;
  timeout_seconds : option Z;
  retry_attempts : option Z;
  metadata : option (gmap string string);
}.
End RuleData.

(** ** RequestRouter *)

Module RequestRouter.
Section Router.
Context {Any : Type}.

Record t := {
  routes : list RouteRule.t;
  handlers : gmap string (Handler Any);
  rate_limiter : RateLimiter.t;
  request_queue : RequestQueue.t Any;
  stats : RequestStats.t;
  is_processing : bool;
  (** the number of worker tasks held in [worker_tasks] *)
  worker_tasks : nat;
  max_concurrent_workers : Z;
}.

Definition set_routes (r : list RouteRule.t) (self : t) : t :=
  {| routes := r; handlers := handlers self;
     rate_limiter := rate_limiter self; request_queue := request_queue self;
     stats := stats self; is_processing := is_processing self;
     worker_tasks := worker_tasks self;
     max_concurrent_workers := max_concurrent_workers self |}.

Definition set_handlers (h : gmap string (Handler Any)) (self : t) : t :=
  {| routes := routes self; handlers := h;
     rate_limiter := rate_limiter self; request_queue := request_queue self;
     stats := stats self; is_processing := is_processing self;
     worker_tasks := worker_tasks self;
     max_concurrent_workers := max_concurrent_workers self |}.

Definition set_rate_limiter (rl : RateLimiter.t) (self : t) : t :=
  {| routes := routes self; handlers := handlers self;
     rate_limiter := rl; request_queue := request_queue self;
     stats := stats self; is_processing := is_processing self;
     worker_tasks := worker_tasks self;
     max_concurrent_workers := max_concurrent_workers self |}.

Definition set_stats (s : RequestStats.t) (self : t) : t :=
  {| routes := routes self; handlers := handlers self;
     rate_limiter := rate_limiter self; request_queue := request_queue self;
     stats := s; is_processing := is_processing self;
     worker_tasks := worker_tasks self;
     max_concurrent_workers := max_concurrent_workers self |}.

(** The predicate [ctx.request_type == ty] of the built-in rules. *)
Definition type_is (ty : RequestType.t) (ctx : RequestContext.t) : option bool :=
  Some (bool_decide (RequestContext.request_type ctx = ty)).

Definition default_rule (name : string) (ty : RequestType.t)
    (handler : string) (boost : Z) (timeout : Z) (limit : Z) : RouteRule.t :=
  {| RouteRule.name := name; RouteRule.condition := type_is ty;
     RouteRule.handler := handler; RouteRule.priority_boost := boost;
     RouteRule.rate_limit := Some limit;
     RouteRule.timeout_seconds := timeout;
     RouteRule.retry_attempts := 3; RouteRule.metadata := None |}.

(** The rules [_create_default_rules] appends, in order. *)
Definition default_rules : list RouteRule.t :=
  [ default_rule "chat_requests" RequestType.CHAT "handle_chat" 0 30 60;
    default_rule "search_requests" RequestType.SEARCH "handle_search" 0 15 30;
    default_rule "knowledge_requests" RequestType.KNOWLEDGE "handle_knowledge" 0 10 100;
    default_rule "status_requests" RequestType.STATUS "handle_status" 1 5 120;
    default_rule "admin_requests" RequestType.ADMIN "handle_admin" 2 60 10 ].

(** [RequestRouter()] with the built-in rules, created at [now]. *)
Definition init (now : datetime) : t :=
  {| routes := default_rules; handlers := ∅;
     rate_limiter := RateLimiter.init;
     request_queue := RequestQueue.init 1000;
     stats := RequestStats.init now; is_processing := false;
     worker_tasks := 0%nat; max_concurrent_workers := 10 |}.

Definition add_route (rule : RouteRule.t) (self : t) : t :=
  set_routes (routes self ++ [rule]) self.

Definition register_handler (name : string) (handler : Handler Any)
    (self : t) : t :=
  set_handlers (<[name := handler]> (handlers self)) self.

(** The loop of [_find_matching_route]: a predicate that raises is
    logged and skipped. *)
Fixpoint find_first (rules : list RouteRule.t) (context : RequestContext.t)
    : option RouteRule.t :=
  match rules with
  | [] => None
  | rule :: rest =>
      match RouteRule.condition rule context with
      | Some true => Some rule
      | Some false | None => find_first rest context
      end
  end.

(** A rule matches when its predicate returns [True]; a predicate that
returns [False] or raises does not. *)
Definition matches (rule : RouteRule.t) (context : RequestContext.t) : Prop :=
  RouteRule.condition rule context = Some true.

Definition _find_matching_route (self : t) (context : RequestContext.t)
    : option RouteRule.t :=
  find_first (routes self) context.

(** The step "Apply priority boost" of [route_request]. *)
Definition apply_priority_boost (rule : RouteRule.t)
    (context : RequestContext.t) : Result RequestContext.t :=
  if 0 <? RouteRule.priority_boost rule then
    let v := Z.min 4 (Priority.value (RequestContext.priority context)
                      + RouteRule.priority_boost rule) in
    match Priority.of_value v with
    | Some p => Ok (RequestContext.set_priority p context)
    | None => Raise (InvalidPriority v)
    end
  else Ok context.

(** [f"{context.user_id or 'anonymous'}:{context.request_type.value}"] *)
Definition rate_key (context : RequestContext.t) : string :=
  let who := match RequestContext.user_id context with
             | Some "" | None => "anonymous"
             | Some u => u
             end in
  who +:+ ":" +:+ RequestType.value (RequestContext.request_type context).

(** The step "Check rate limiting" of [route_request]; the limit is
    skipped when it is [None] or 0. *)
Definition check_rate_limit (rule : RouteRule.t)
    (context : RequestContext.t) (self : t) (w : World.t)
    : option Error * t * World.t :=
  match RouteRule.rate_limit rule with
  | None => (None, self, w)
  | Some limit =>
      if limit =? 0 then (None, self, w)
      else
        let '(now, w) := World.read_now w in
        let '(allowed, rl) :=
          RateLimiter.is_allowed now (rate_key context) limit 1
                                 (rate_limiter self) in
        let self := set_rate_limiter rl self in
        if allowed then (None, self, w)
        else
          let '(now', w) := World.read_now w in
          let remaining :=
            RateLimiter.get_remaining now' (rate_key context) limit 1 rl in
          (Some (RateLimitExceeded remaining), self, w)
  end.

(** [handler_override or self.handlers.get(rule.handler)] *)
Definition resolve_handler (rule : RouteRule.t)
    (handler_override : option (Handler Any)) (self : t)
    : option (Handler Any) :=
  match handler_override with
  | Some h => Some h
  | None => handlers self !! RouteRule.handler rule
  end.

(** The [for attempt in range(retry_attempts)] loop of
    [_execute_with_retries], with [remaining] iterations to go, and the
    [raise] that follows it. *)
Fixpoint retry_loop (handler : Handler Any) (context : RequestContext.t)
    (timeout_seconds retry_attempts : Z) (remaining : nat) (attempt : Z)
    (last_exception : option Error) (w : World.t) : Result Any * World.t :=
  match remaining with
  | O => (Raise (default AllRetryAttemptsFailed last_exception), w)
  | S remaining' =>
      let '(outcome, w) := World.await handler context timeout_seconds w in
      match outcome with
      | Ok v => (Ok v, w)
      | Raise e =>
          let w :=
            if attempt <? retry_attempts - 1
            then World.sleep (if is_timeout e then 2 ^ attempt else 1) w
            else w in
          retry_loop handler context timeout_seconds retry_attempts
                     remaining' (attempt + 1) (Some e) w
      end
  end.

Definition _execute_with_retries (handler : Handler Any)
    (context : RequestContext.t) (timeout_seconds retry_attempts : Z)
    (w : World.t) : Result Any * World.t :=
  retry_loop handler context timeout_seconds retry_attempts
             (Z.to_nat retry_attempts) 0 None w.

Definition _update_response_time_stats (execution_time : float) (self : t) : t :=
  let total_requests :=
    RequestStats.successful_requests (stats self)
    + RequestStats.failed_requests (stats self) in
  if 0 <? total_requests then
    let current_avg := RequestStats.average_response_time (stats self) in
    set_stats
      (RequestStats.set_average
         (PrimFloat.div
            (PrimFloat.add
               (PrimFloat.mul current_avg (float_of_int (total_requests - 1)))
               execution_time)
            (float_of_int total_requests))
         (stats self))
      self
  else self.

(** What a call of [route_request] leaves behind: the value returned or
    the exception raised, the context object (its priority may have been
    reassigned), the router and the surroundings. *)
Record Run := {
  result : Result Any;
  context_after : RequestContext.t;
  router_after : t;
  world_after : World.t;
}.

(** The [try] block of [route_request]. *)
Definition route_request_try (self : t) (w : World.t)
    (context : RequestContext.t) (handler_override : option (Handler Any))
    : Run :=
  let self := set_stats (RequestStats.seen context (stats self)) self in
  match _find_matching_route self context with
  | None =>
      {| result := Raise (NoRouteFound (RequestContext.request_type context));
         context_after := context; router_after := self; world_after := w |}
  | Some matching_rule =>
      match apply_priority_boost matching_rule context with
      | Raise e =>
          {| result := Raise e; context_after := context;
             router_after := self; world_after := w |}
      | Ok context =>
          match check_rate_limit matching_rule context self w with
          | (Some e, self, w) =>
              {| result := Raise e; context_after := context;
                 router_after := self; world_after := w |}
          | (None, self, w) =>
              match resolve_handler matching_rule handler_override self with
              | None =>
                  {| result := Raise (HandlerNotFound (RouteRule.handler matching_rule));
                     context_after := context; router_after := self;
                     world_after := w |}
              | Some handler =>
                  match _execute_with_retries handler context
                          (RouteRule.timeout_seconds matching_rule)
                          (RouteRule.retry_attempts matching_rule) w with
                  | (Ok v, w) =>
                      {| result := Ok v; context_after := context;
                         router_after :=
                           set_stats (RequestStats.succeeded (stats self)) self;
                         world_after := w |}
                  | (Raise e, w) =>
                      {| result := Raise e; context_after := context;
                         router_after := self; world_after := w |}
                  end
              end
          end
      end
  end.

(** [route_request]: the [try] block, the [except Exception] clause that
    counts the failure and re-raises, and the [finally] clause that
    updates the average response time. *)
Definition route_request (self : t) (w : World.t)
    (context : RequestContext.t) (handler_override : option (Handler Any))
    : Run :=
  let '(start_time, w) := World.read_time w in
  let r := route_request_try self w context handler_override in
  let self :=
    match result r with
    | Ok _ => router_after r
    | Raise _ =>
        set_stats (RequestStats.failed (stats (router_after r))) (router_after r)
    end in
  let '(end_time, w) := World.read_time (world_after r) in
  let execution_time := PrimFloat.sub end_time start_time in
  {| result := result r; context_after := context_after r;
     router_after := _update_response_time_stats execution_time self;
     world_after := w |}.

(** [queue_request] *)
Definition queue_request (context : RequestContext.t) (handler : Handler Any)
    (self : t) : Awaited (bool * RequestQueue.t Any) :=
  RequestQueue.put context handler (request_queue self).

(** The dictionary [get_stats] returns; the rounded
    [average_response_time_ms] entry is left out. *)
Record Snapshot := {
  snap_total_requests : Z;
  snap_successful_requests : Z;
  snap_failed_requests : Z;
  success_rate : float;
  snap_requests_by_type : gmap string Z;
  snap_requests_by_priority : gmap string Z;
  queue_sizes : Priority.t → Z;
  active_workers : nat;
  snap_is_processing : bool;
  total_routes : nat;
  registered_handlers : nat;
}.

Definition get_stats (self : t) : Snapshot :=
  {| snap_total_requests := RequestStats.total_requests (stats self);
     snap_successful_requests := RequestStats.successful_requests (stats self);
     snap_failed_requests := RequestStats.failed_requests (stats self);
     success_rate :=
       PrimFloat.mul
         (int_truediv (RequestStats.successful_requests (stats self))
                      (Z.max 1 (RequestStats.total_requests (stats self))))
         (float_of_int 100);
     snap_requests_by_type := RequestStats.requests_by_type (stats self);
     snap_requests_by_priority := RequestStats.requests_by_priority (stats self);
     queue_sizes := RequestQueue.size (request_queue self);
     active_workers := worker_tasks self;
     snap_is_processing := is_processing self;
     total_routes := length (routes self);
     registered_handlers := size (handlers self) |}.

(** [reset_stats], called at [now]. *)
Definition reset_stats (now : datetime) (self : t) : t :=
  set_stats (RequestStats.init now) self.

(** The routers that occur: one whose statistics are fresh, and what the
operations of the class make of one that occurs. *)
Inductive reachable : t → Prop :=
| reachable_fresh self now :
    stats self = RequestStats.init now → reachable self
| reachable_add_route self rule :
    reachable self → reachable (add_route rule self)
| reachable_register_handler self name handler :
    reachable self → reachable (register_handler name handler self)
| reachable_route_request self w context handler_override :
    reachable self →
    reachable (router_after (route_request self w context handler_override))
| reachable_reset_stats self now :
    reachable self → reachable (reset_stats now self).

(** *** Workers *)

(** [start_workers(num_workers)].  The worker tasks it creates are counted
    in [worker_tasks]; what a task does once scheduled is not part of this
    model. *)
Definition start_workers (num_workers : option Z) (self : t) : t :=
  if is_processing self then self
  else
    let num_workers :=
      match num_workers with
      | Some n => if n =? 0 then max_concurrent_workers self else n
      | None => max_concurrent_workers self
      end in
    {| routes := routes self; handlers := handlers self;
       rate_limiter := rate_limiter self; request_queue := request_queue self;
       stats := stats self; is_processing := true;
       worker_tasks := (worker_tasks self + Z.to_nat num_workers)%nat;
       max_concurrent_workers := max_concurrent_workers self |}.

(** [stop_workers()] *)
Definition stop_workers (self : t) : t :=
  {| routes := routes self; handlers := handlers self;
     rate_limiter := rate_limiter self; request_queue := request_queue self;
     stats := stats self; is_processing := false;
     worker_tasks := 0%nat;
     max_concurrent_workers := max_concurrent_workers self |}.

(** *** Rules from configuration *)

(** The substring test [needle in haystack]. *)
Fixpoint contains (needle haystack : string) : bool :=
  String.prefix needle haystack
  || match haystack with
     | EmptyString => false
     | String _ rest => contains needle rest
     end.

(** The predicate [_create_rule_from_config] derives from the rule name. *)
Definition condition_of_name (name : string) : RequestContext.t → option bool :=
  if contains "chat" name then type_is RequestType.CHAT
  else if contains "search" name then type_is RequestType.SEARCH
  else if contains "knowledge" name then type_is RequestType.KNOWLEDGE
  else if contains "status" name then type_is RequestType.STATUS
  else if contains "admin" name then type_is RequestType.ADMIN
  else λ _, Some true.

Definition _create_rule_from_config (rule_data : RuleData.t) (self : t) : t :=
  let name := default "unknown" (RuleData.name rule_data) in
  let handler := default "default_handler" (RuleData.handler rule_data) in
  let rule :=
    {| RouteRule.name := name;
       RouteRule.condition := condition_of_name name;
       RouteRule.handler := handler;
       RouteRule.priority_boost := default 0 (RuleData.priority_boost rule_data);
       RouteRule.rate_limit := RuleData.rate_limit rule_data;
       RouteRule.timeout_seconds := default 30 (RuleData.timeout_seconds rule_data);
       RouteRule.retry_attempts := default 3 (RuleData.retry_attempts rule_data);
       RouteRule.metadata := RuleData.metadata rule_data |} in
  set_routes (routes self ++ [rule]) self.

(** [_create_default_rules]: five calls of [add_route]. *)
Definition _create_default_rules (self : t) : t :=
  foldl (λ self rule, add_route rule self) self default_rules.

(** The entry [_save_routing_rules] writes for a rule: every field but the
    predicate. *)
Definition saved_rule (rule : RouteRule.t) : RuleData.t :=
  {| RuleData.name := Some (RouteRule.name rule);
     RuleData.handler := Some (RouteRule.handler rule);
     RuleData.priority_boost := Some (RouteRule.priority_boost rule);
     RuleData.rate_limit := RouteRule.rate_limit rule;
     RuleData.timeout_seconds := Some (RouteRule.timeout_seconds rule);
     RuleData.retry_attempts := Some (RouteRule.retry_attempts rule);
     RuleData.metadata := RouteRule.metadata rule |}.

(** The list [_save_routing_rules] writes under "rules". *)
Definition _save_routing_rules (self : t) : list RuleData.t :=
  saved_rule <$> routes self.

(** What [_load_routing_rules] finds at [router/router_rules.json]: no
    file; a file whose reading, parsing or "rules" entry raises before any
    rule is made; or a file with its list of entries ([None] for a file
    without the "rules" key), where an entry that makes
    [_create_rule_from_config] raise is [None]. *)
Inductive RulesFile :=
| Missing
| Unreadable
| Parsed (rules : option (list (option RuleData.t))).

(** The loop over the entries, up to the first that raises; the flag says
    whether the loop ran to its end. *)
Fixpoint load_entries (entries : list (option RuleData.t)) (self : t) : t * bool :=
  match entries with
  | [] => (self, true)
  | Some rule_data :: entries' =>
      load_entries entries' (_create_rule_from_config rule_data self)
  | None :: _ => (self, false)
  end.

(** [_load_routing_rules].  [mkdir_ok] and [write_ok] say whether the
    directory creation and the writing of the file succeed when the rules
    are saved; the second component is what has been written, if anything.
    The directory is created outside the [try] of [_save_routing_rules],
    so its failure reaches the [except] clause here. *)
Definition _load_routing_rules (file : RulesFile) (mkdir_ok write_ok : bool)
    (self : t) : t * option (list RuleData.t) :=
  match file with
  | Parsed rules =>
      let '(self, completed) := load_entries (default [] rules) self in
      if completed then (self, None) else (_create_default_rules self, None)
  | Unreadable => (_create_default_rules self, None)
  | Missing =>
      let self := _create_default_rules self in
      if mkdir_ok
      then (self, if write_ok then Some (_save_routing_rules self) else None)
      else (_create_default_rules self, None)
  end.

(** The rule [_create_rule_from_config] makes of the saved entry of a
    rule: the rule itself with the predicate derived from its name. *)
Definition reloaded (rule : RouteRule.t) : RouteRule.t :=
  {| RouteRule.name := RouteRule.name rule;
     RouteRule.condition := condition_of_name (RouteRule.name rule);
     RouteRule.handler := RouteRule.handler rule;
     RouteRule.priority_boost := RouteRule.priority_boost rule;
     RouteRule.rate_limit := RouteRule.rate_limit rule;
     RouteRule.timeout_seconds := RouteRule.timeout_seconds rule;
     RouteRule.retry_attempts := RouteRule.retry_attempts rule;
     RouteRule.metadata := RouteRule.metadata rule |}.

(** [context.user_id or 'anonymous'] *)
Definition effective_user (context : RequestContext.t) : string :=
  match RequestContext.user_id context with
  | Some "" | None => "anonymous"
  | Some u => u
  end.
End Router.
Arguments t : clear implicits.
Arguments Run : clear implicits.
Arguments Snapshot : clear implicits.
End RequestRouter.

(** ** The server application *)

(** [server/app.py]: the handlers the application binds to the shared
    router when the module is loaded. *)
Module ServerApp.
Section App.
Context {Any : Type}.
Variables handle_chat handle_search handle_knowledge handle_status : Handler Any.

Definition register_handlers (request_router : RequestRouter.t Any)
    : RequestRouter.t Any :=
  RequestRouter.register_handler "handle_status" handle_status
    (RequestRouter.register_handler "handle_knowledge" handle_knowledge
       (RequestRouter.register_handler "handle_search" handle_search
          (RequestRouter.register_handler "handle_chat" handle_chat
             request_router))).
End App.
End ServerApp.

(** ** Sample values *)

Module Sample.
(** A request of user "u1". *)
Definition context (ty : RequestType.t) (p : Priority.t) : RequestContext.t :=
  {| RequestContext.request_id := "r1"; RequestContext.request_type := ty;
     RequestContext.priority := p; RequestContext.user_id := Some "u1";
     RequestContext.session_id := None; RequestContext.timestamp := 0;
     RequestContext.metadata := None |}.

(** Surroundings in which successive clock readings are one second apart
    and nothing has happened yet. *)
Definition world : World.t :=
  {| World.time_time := λ n, float_of_int (Z.of_nat n);
     World.time_reads := 0;
     World.datetime_now := λ n, Z.of_nat n * 1000000;
     World.now_reads := 0;
     World.awaited := 0;
     World.events := [] |}.

(** A handler that echoes the request id. *)
Definition echo : Handler string :=
  λ context _ _, Ok (RequestContext.request_id context).

(** A handler that always raises. *)
Definition broken : Handler string :=
  λ _ _ _, Raise (HandlerError "boom").

(** A handler that never meets its deadline. *)
Definition sleepy : Handler string :=
  λ _ _ _, Raise TimeoutError.

(** A handler whose first invocation raises and whose later ones echo. *)
Definition flaky : Handler string :=
  λ context _ i,
    match i with
    | O => Raise (HandlerError "boom")
    | S _ => Ok (RequestContext.request_id context)
    end.

(** A router with the built-in rules and a handler for chat requests. *)
Definition router (handler : Handler string) : RequestRouter.t string :=
  RequestRouter.register_handler "handle_chat" handler (RequestRouter.init 0).

(** The rate-limit key of user "u1" for chat requests, and the limiter
    after two, and after three, calls for it ten seconds apart under a
    limit of 2. *)
Definition key : string := "u1:chat".

Definition after_two : RateLimiter.t :=
  (RateLimiter.is_allowed 10000000 key 2 1
     (RateLimiter.is_allowed 0 key 2 1 RateLimiter.init).2).2.

Definition after_three : RateLimiter.t :=
  (RateLimiter.is_allowed 20000000 key 2 1 after_two).2.

(** The first of the built-in rules. *)
Definition chat_rule : RouteRule.t :=
  RequestRouter.default_rule "chat_requests" RequestType.CHAT "handle_chat" 0 30 60.

(** [RequestQueue(16)] after one [put] at NORMAL. *)
Definition one_queued : RequestQueue.t string :=
  RequestQueue.set_queue Priority.NORMAL
    (AsyncioQueue.push (context RequestType.CHAT Priority.NORMAL, echo)
       (AsyncioQueue.init 4))
    (RequestQueue.init 16).

(** A chat rule with the rate limit [limit], and a router that has this
    rule alone, the echo handler, and a limiter that has admitted "u1"
    twice for chat requests. *)
Definition limited_rule (limit : Z) : RouteRule.t :=
  {| RouteRule.name := "chat_requests";
     RouteRule.condition := RequestRouter.type_is RequestType.CHAT;
     RouteRule.handler := "handle_chat"; RouteRule.priority_boost := 0;
     RouteRule.rate_limit := Some limit; RouteRule.timeout_seconds := 1;
     RouteRule.retry_attempts := 2; RouteRule.metadata := None |}.

Definition limited_router (limit : Z) : RequestRouter.t string :=
  RequestRouter.set_rate_limiter after_two
    (RequestRouter.set_routes [limited_rule limit] (router echo)).

(** A router whose first rule has a predicate that raises, whose second
    is the chat rule, bound to the echo handler, and whose third matches
    every request and names a handler that always raises. *)
Definition raising_rule : RouteRule.t :=
  {| RouteRule.name := "raises"; RouteRule.condition := λ _, None;
     RouteRule.handler := "never"; RouteRule.priority_boost := 3;
     RouteRule.rate_limit := Some 1; RouteRule.timeout_seconds := 1;
     RouteRule.retry_attempts := 1; RouteRule.metadata := None |}.

Definition catch_all_rule : RouteRule.t :=
  {| RouteRule.name := "everything"; RouteRule.condition := λ _, Some true;
     RouteRule.handler := "handle_everything"; RouteRule.priority_boost := 0;
     RouteRule.rate_limit := None; RouteRule.timeout_seconds := 1;
     RouteRule.retry_attempts := 1; RouteRule.metadata := None |}.

Definition overlapping_router : RequestRouter.t string :=
  RequestRouter.register_handler "handle_everything" broken
    (RequestRouter.register_handler "never" broken
       (RequestRouter.set_routes [raising_rule; chat_rule; catch_all_rule]
          (router echo))).

(** A configuration entry that gives only a name, one with two keywords. *)
Definition admin_chat_entry : RuleData.t :=
  {| RuleData.name := Some "admin_chat_requests"; RuleData.handler := None;
     RuleData.priority_boost := None; RuleData.rate_limit := None;
     RuleData.timeout_seconds := None; RuleData.retry_attempts := None;
     RuleData.metadata := None |}.

(** A router before its rules are loaded. *)
Definition without_rules : RequestRouter.t string :=
  RequestRouter.set_routes [] (router echo).

(** The server application's router, with sample handlers. *)
Definition server_router : RequestRouter.t string :=
  ServerApp.register_handlers echo flaky broken sleepy (RequestRouter.init 0).

(** The router after one chat request that succeeded and one that failed. *)
Definition half_successful : RequestRouter.t string :=
  let chat := context RequestType.CHAT Priority.NORMAL in
  let run1 := RequestRouter.route_request (router echo) world chat None in
  let run2 :=
    RequestRouter.route_request (RequestRouter.router_after run1)
      (RequestRouter.world_after run1) chat (Some broken) in
  RequestRouter.router_after run2.
End Sample.

(** * Properties *)

(** ** The sliding window of the rate limiter *)

Section RateLimiterProperties.
Import RateLimiter.

Lemma recent_length_le (a : datetime) (l : list datetime) :
  (length (recent a l) ≤ length l)%nat.
Proof. apply length_filter. Qed.

Lemma recent_all (a : datetime) (l : list datetime) :
  Forall (λ t, a < t) l → recent a l = l.
Proof.
  induction 1 as [|t l Ht _ IH]; [done|].
  unfold recent in *. rewrite filter_cons_True by done. by rewrite IH.
Qed.

Lemma recent_none (a : datetime) (l : list datetime) :
  Forall (λ t, t ≤ a) l → recent a l = [].
Proof.
  induction 1 as [|t l Ht _ IH]; [done|].
  unfold recent in *. rewrite filter_cons_False by lia. done.
Qed.

(** Purging at an earlier instant first does not change a later purge. *)
Lemma recent_recent (a b : datetime) (l : list datetime) :
  a ≤ b → recent b (recent a l) = recent b l.
Proof.
  intros Hab. unfold recent. induction l as [|t l IH]; [done|].
  rewrite !filter_cons. destruct (decide (a < t)), (decide (b < t)); try lia.
  - rewrite filter_cons_True by done. by rewrite IH.
  - rewrite filter_cons_False by done. done.
  - done.
Qed.

(** In any order of the two instants, a purge can only remove entries. *)
Lemma recent_recent_le (a b : datetime) (l : list datetime) :
  (length (recent b (recent a l)) ≤ length (recent b l))%nat.
Proof.
  unfold recent. induction l as [|t l IH]; [done|].
  rewrite !filter_cons.
  destruct (decide (a < t)), (decide (b < t)); simpl;
    rewrite ?filter_cons_True, ?filter_cons_False by done; simpl; lia.
Qed.

(** [is_allowed] in terms of the admissions in the window. *)
Lemma is_allowed_in_window now key limit w self :
  is_allowed now key limit w self =
    if limit <=? Z.of_nat (length (in_window now key w self))
    then (false, {| requests := <[key := in_window now key w self]> (requests self) |})
    else (true, {| requests := <[key := in_window now key w self ++ [now]]> (requests self) |}).
Proof.
  unfold is_allowed, in_window. by destruct (requests self !! key).
Qed.

Lemma in_window_lookup now key w self l :
  requests self !! key = Some l →
  in_window now key w self = recent (now - timedelta_minutes w) l.
Proof. unfold in_window. by intros ->. Qed.

(** C3. With a limit of 2 and the one-minute window, starting with no
    admission of [K] in the window: of three calls within one window the
    first two are admitted and the third is rejected, [get_remaining] is
    then 0, and a call made once the window has passed the recorded
    admissions is admitted again.  Every admission records its timestamp
    in the same step and the rejection records none; in general a call is
    rejected exactly when [limit] timestamps already lie in the window. *)
Theorem C3_sliding_window_limit_two
    (K : string) (rl0 : RateLimiter.t) (t1 t2 t3 t4 t5 : datetime) :
  in_window t1 K 1 rl0 = [] →
  t1 ≤ t2 → t2 ≤ t3 → t3 ≤ t4 → t4 < t1 + timedelta_minutes 1 →
  t2 + timedelta_minutes 1 ≤ t5 →
  let r1 := is_allowed t1 K 2 1 rl0 in
  let r2 := is_allowed t2 K 2 1 r1.2 in
  let r3 := is_allowed t3 K 2 1 r2.2 in
  let r5 := is_allowed t5 K 2 1 r3.2 in
  (r1.1 = true ∧ r2.1 = true ∧ r3.1 = false)
  ∧ get_remaining t4 K 2 1 r3.2 = 0
  ∧ r5.1 = true
  ∧ (requests r1.2 !! K = Some [t1]
     ∧ requests r2.2 !! K = Some [t1; t2]
     ∧ requests r3.2 !! K = Some [t1; t2]
     ∧ requests r5.2 !! K = Some [t5])
  ∧ (∀ now key limit w self,
       (is_allowed now key limit w self).1 = false
       ↔ limit ≤ Z.of_nat (length (in_window now key w self))).
Proof.
  intros H0 H12 H23 H34 H41 H25. unfold timedelta_minutes in *.
  assert (E1 : is_allowed t1 K 2 1 rl0
               = (true, {| requests := <[K := [t1]]> (requests rl0) |})).
  { rewrite is_allowed_in_window, H0. done. }
  rewrite E1. cbn [fst snd].
  assert (E2 : is_allowed t2 K 2 1 {| requests := <[K := [t1]]> (requests rl0) |}
               = (true, {| requests := <[K := [t1; t2]]> (requests rl0) |})).
  { rewrite is_allowed_in_window.
    erewrite in_window_lookup by apply lookup_insert_eq.
    rewrite recent_all by (repeat constructor; unfold timedelta_minutes; lia).
    cbn [length requests app]. rewrite !insert_insert_eq. reflexivity. }
  rewrite E2. cbn [fst snd].
  assert (E3 : is_allowed t3 K 2 1 {| requests := <[K := [t1; t2]]> (requests rl0) |}
               = (false, {| requests := <[K := [t1; t2]]> (requests rl0) |})).
  { rewrite is_allowed_in_window.
    erewrite in_window_lookup by apply lookup_insert_eq.
    rewrite recent_all by (repeat constructor; unfold timedelta_minutes; lia).
    cbn [length requests app]. rewrite !insert_insert_eq. reflexivity. }
  rewrite E3. cbn [fst snd].
  assert (E5 : is_allowed t5 K 2 1 {| requests := <[K := [t1; t2]]> (requests rl0) |}
               = (true, {| requests := <[K := [t5]]> (requests rl0) |})).
  { rewrite is_allowed_in_window.
    erewrite in_window_lookup by apply lookup_insert_eq.
    rewrite recent_none by (repeat constructor; unfold timedelta_minutes; lia).
    cbn [length requests app]. rewrite !insert_insert_eq. reflexivity. }
  rewrite E5. cbn [fst snd requests].
  split_and!; try done.
  - unfold get_remaining. cbn [requests]. rewrite lookup_insert_eq.
    rewrite recent_all by (repeat constructor; unfold timedelta_minutes; lia).
    done.
  - apply lookup_insert_eq.
  - apply lookup_insert_eq.
  - apply lookup_insert_eq.
  - apply lookup_insert_eq.
  - intros now key limit w self. rewrite is_allowed_in_window.
    destruct (Z.leb_spec limit (Z.of_nat (length (in_window now key w self))));
      cbn; split; (done || lia).
Qed.

(** C10. A call of [is_allowed] that returns [False] under a positive limit
    appends nothing: the entry of the key becomes the purge of what it was,
    the admissions in the window are the same before and after, and no
    later [get_remaining] is smaller for it (it is equal once the clock has
    not gone back). *)
Theorem C10_rejection_consumes_no_quota
    (now : datetime) (key : string) (limit w : Z) (self self' : RateLimiter.t) :
  0 < limit →
  is_allowed now key limit w self = (false, self') →
  (∃ l, requests self !! key = Some l
        ∧ requests self' !! key = Some (recent (now - timedelta_minutes w) l))
  ∧ in_window now key w self' = in_window now key w self
  ∧ length (in_window now key w self') = length (in_window now key w self)
  ∧ (∀ now', get_remaining now' key limit w self
             ≤ get_remaining now' key limit w self')
  ∧ (∀ now', now ≤ now' →
       get_remaining now' key limit w self'
       = get_remaining now' key limit w self)
  ∧ (∀ key', key' ≠ key → requests self' !! key' = requests self !! key').
Proof.
  intros Hlimit Hcall. rewrite is_allowed_in_window in Hcall.
  destruct (Z.leb_spec limit (Z.of_nat (length (in_window now key w self))))
    as [Hfull|]; [|done].
  injection Hcall as <-.
  destruct (requests self !! key) as [l|] eqn:Hl.
  2: { unfold in_window in Hfull. rewrite Hl in Hfull. cbn in Hfull. lia. }
  rewrite (in_window_lookup _ _ _ _ _ Hl) in *.
  assert (Hwin : in_window now key w
                   {| requests := <[key := recent (now - timedelta_minutes w) l]>
                                    (requests self) |}
                 = recent (now - timedelta_minutes w) l).
  { erewrite in_window_lookup by apply lookup_insert_eq.
    by apply recent_recent. }
  split_and!.
  - exists l. split; [done|]. apply lookup_insert_eq.
  - done.
  - by rewrite Hwin.
  - intros now'. unfold get_remaining. cbn [requests].
    rewrite Hl, lookup_insert_eq.
    pose proof (recent_recent_le (now - timedelta_minutes w)
                  (now' - timedelta_minutes w) l). lia.
  - intros now' Hle. unfold get_remaining. cbn [requests].
    rewrite Hl, lookup_insert_eq.
    rewrite recent_recent by lia. done.
  - intros key' Hne. cbn [requests]. by rewrite lookup_insert_ne.
Qed.

End RateLimiterProperties.

(** ** The priority queue *)

Section RequestQueueProperties.
Context {Any : Type}.
Import RequestQueue.

Implicit Types (self : RequestQueue.t Any) (p : Priority.t) (x : Item Any).

Lemma queues_set_queue_eq self p q : queues (set_queue p q self) p = q.
Proof. cbn. by rewrite decide_True. Qed.

Lemma queues_set_queue_ne self p p' q :
  p' ≠ p → queues (set_queue p q self) p' = queues self p'.
Proof. intros. cbn. by rewrite decide_False. Qed.

Lemma get_from_skip self p levels :
  AsyncioQueue.items (queues self p) = [] →
  get_from (p :: levels) self = get_from levels self.
Proof.
  intros H. cbn [get_from]. unfold AsyncioQueue.empty. by rewrite H.
Qed.

Lemma get_from_take self p levels x rest :
  AsyncioQueue.items (queues self p) = x :: rest →
  get_from (p :: levels) self = (Some x, set_queue p (tail_of self p) self).
Proof.
  intros H. cbn [get_from]. unfold AsyncioQueue.empty, AsyncioQueue.pop, tail_of.
  by rewrite H.
Qed.

(** [get] takes the head of the highest level that is not empty. *)
Lemma get_highest self p x rest :
  AsyncioQueue.items (queues self p) = x :: rest →
  (∀ p', Priority.value p < Priority.value p' →
         AsyncioQueue.items (queues self p') = []) →
  get self = (Some x, set_queue p (tail_of self p) self).
Proof.
  intros Hp Hhigher. unfold get.
  destruct p; cbn in Hhigher.
  - rewrite (get_from_skip _ Priority.CRITICAL) by (apply Hhigher; cbn; lia).
    rewrite (get_from_skip _ Priority.HIGH) by (apply Hhigher; cbn; lia).
    rewrite (get_from_skip _ Priority.NORMAL) by (apply Hhigher; cbn; lia).
    by erewrite get_from_take.
  - rewrite (get_from_skip _ Priority.CRITICAL) by (apply Hhigher; cbn; lia).
    rewrite (get_from_skip _ Priority.HIGH) by (apply Hhigher; cbn; lia).
    by erewrite get_from_take.
  - rewrite (get_from_skip _ Priority.CRITICAL) by (apply Hhigher; cbn; lia).
    by erewrite get_from_take.
  - by erewrite get_from_take.
Qed.

Lemma get_all_empty self :
  (∀ p, AsyncioQueue.items (queues self p) = []) → get self = (None, self).
Proof.
  intros H. unfold get. by rewrite !get_from_skip.
Qed.

(** Successive calls return a level's items in the order they stand. *)
Lemma drain_level p (l : list (Item Any)) : ∀ self,
  AsyncioQueue.items (queues self p) = l →
  (∀ p', Priority.value p < Priority.value p' →
         AsyncioQueue.items (queues self p') = []) →
  (drain (length l) self).1 = l.
Proof.
  induction l as [|x l IH]; intros self Hl Hhigher; [done|].
  cbn [length drain]. rewrite (get_highest self p x l Hl Hhigher).
  specialize (IH (set_queue p (tail_of self p) self)).
  destruct (drain (length l) _) as [rest s'']. cbn [fst] in *.
  f_equal. apply IH.
  - rewrite queues_set_queue_eq. unfold tail_of. cbn. by rewrite Hl.
  - intros p' Hlt. rewrite queues_set_queue_ne; [by apply Hhigher|].
    intros ->. lia.
Qed.

(** [put] on a level that is not full returns [True] with the pair at the
    tail of that level, and leaves the other levels alone. *)
Lemma put_not_full self (context : RequestContext.t) (handler : Handler Any) :
  AsyncioQueue.full (queues self (RequestContext.priority context)) = false →
  ∃ self', put context handler self = Returned (true, self')
    ∧ AsyncioQueue.items (queues self' (RequestContext.priority context))
      = AsyncioQueue.items (queues self (RequestContext.priority context))
        ++ [(context, handler)]
    ∧ (∀ p, p ≠ RequestContext.priority context → queues self' p = queues self p).
Proof.
  intros Hfull. unfold put. rewrite Hfull. eexists. split; [done|]. split.
  - by rewrite queues_set_queue_eq.
  - intros p Hne. by rewrite queues_set_queue_ne.
Qed.

Lemma init_not_full (max_size : Z) p :
  AsyncioQueue.full (queues (init (Any := Any) max_size) p) = false.
Proof.
  unfold AsyncioQueue.full. cbn.
  destruct (Z.leb_spec (max_size / 4) 0); [done|].
  apply Z.leb_gt. unfold AsyncioQueue.qsize. cbn. lia.
Qed.

(** C6. [get] returns the head of the highest level that is not empty, in
    the order CRITICAL, HIGH, NORMAL, LOW ([None] when all are empty); with
    one item at LOW and one at CRITICAL the CRITICAL item comes first,
    both for such a queue state and for the two items enqueued into a
    fresh queue in the opposite order; and a level hands out its items in
    the order [put] admitted them: [put] adds at the tail and successive
    [get]s take from the head. *)
Theorem C6_get_highest_priority_then_fifo :
  (∀ self p x rest,
     AsyncioQueue.items (queues self p) = x :: rest →
     (∀ p', Priority.value p < Priority.value p' →
            AsyncioQueue.items (queues self p') = []) →
     get self = (Some x, set_queue p (tail_of self p) self))
  ∧ (∀ self, (∀ p, AsyncioQueue.items (queues self p) = []) →
             get self = (None, self))
  ∧ (∀ self xl xc,
       AsyncioQueue.items (queues self Priority.LOW) = [xl] →
       AsyncioQueue.items (queues self Priority.CRITICAL) = [xc] →
       (get self).1 = Some xc)
  ∧ (∀ (cl cc : RequestContext.t) (hl hc : Handler Any) (max_size : Z),
       RequestContext.priority cl = Priority.LOW →
       RequestContext.priority cc = Priority.CRITICAL →
       ∃ s1 s2, put cl hl (init max_size) = Returned (true, s1)
                ∧ put cc hc s1 = Returned (true, s2)
                ∧ (drain 3 s2).1 = [(cc, hc); (cl, hl)])
  ∧ (∀ self p,
       (∀ p', Priority.value p < Priority.value p' →
              AsyncioQueue.items (queues self p') = []) →
       (drain (length (AsyncioQueue.items (queues self p))) self).1
       = AsyncioQueue.items (queues self p))
  ∧ (∀ self (context : RequestContext.t) (handler : Handler Any),
       AsyncioQueue.full (queues self (RequestContext.priority context)) = false →
       ∃ self', put context handler self = Returned (true, self')
         ∧ AsyncioQueue.items (queues self' (RequestContext.priority context))
           = AsyncioQueue.items (queues self (RequestContext.priority context))
             ++ [(context, handler)]).
Proof.
  split_and!.
  - apply get_highest.
  - apply get_all_empty.
  - intros self xl xc _ Hc. unfold get.
    by rewrite (get_from_take _ _ _ xc [] Hc).
  - intros cl cc hl hc max_size Hl Hc.
    destruct (put_not_full (init max_size) cl hl (init_not_full _ _))
      as (s1 & Hput1 & Hlow1 & Hother1).
    assert (Hfull1 : AsyncioQueue.full (queues s1 (RequestContext.priority cc)) = false).
    { rewrite Hother1 by congruence. apply init_not_full. }
    destruct (put_not_full s1 cc hc Hfull1) as (s2 & Hput2 & Hcrit2 & Hother2).
    exists s1, s2. split_and!; [done..|].
    rewrite Hc in *. rewrite Hl in *.
    rewrite Hother1 in Hcrit2 by done. cbn in Hcrit2.
    assert (Hlow2 : AsyncioQueue.items (queues s2 Priority.LOW) = [(cl, hl)]).
    { rewrite Hother2 by done. by rewrite Hlow1. }
    assert (Hmid : ∀ p, p ≠ Priority.LOW → p ≠ Priority.CRITICAL →
                        AsyncioQueue.items (queues s2 p) = []).
    { intros p ? ?. rewrite Hother2, Hother1 by done. done. }
    cbn [drain]. rewrite (get_highest s2 Priority.CRITICAL _ [] Hcrit2)
      by (intros []; cbn; lia).
    set (s3 := set_queue Priority.CRITICAL _ s2).
    assert (Hlow3 : AsyncioQueue.items (queues s3 Priority.LOW) = [(cl, hl)]).
    { unfold s3. by rewrite queues_set_queue_ne. }
    rewrite (get_highest s3 Priority.LOW _ [] Hlow3).
    2: { intros [] ?; try (cbn in *; lia); unfold s3.
         - rewrite queues_set_queue_ne by done. by apply Hmid.
         - rewrite queues_set_queue_ne by done. by apply Hmid.
         - rewrite queues_set_queue_eq. unfold tail_of.
           cbn [AsyncioQueue.items]. by rewrite Hcrit2. }
    rewrite get_all_empty; [done|].
    intros [].
    + rewrite queues_set_queue_eq. unfold tail_of.
      cbn [AsyncioQueue.items]. by rewrite Hlow3.
    + rewrite queues_set_queue_ne by done. unfold s3.
      rewrite queues_set_queue_ne by done. by apply Hmid.
    + rewrite queues_set_queue_ne by done. unfold s3.
      rewrite queues_set_queue_ne by done. by apply Hmid.
    + rewrite queues_set_queue_ne by done. unfold s3.
      rewrite queues_set_queue_eq. unfold tail_of.
      cbn [AsyncioQueue.items]. by rewrite Hcrit2.
  - intros self p Hhigher. by eapply drain_level.
  - intros self context handler Hfull.
    destruct (put_not_full self context handler Hfull) as (self' & ? & ? & _).
    eauto.
Qed.

(** C5 on the code: after four [put]s have filled the NORMAL level of
    [RequestQueue(16)] (capacity 16 // 4 = 4), the fifth [put] of a NORMAL
    context stays suspended in [await queue.put]; it does not return, and
    from no queue state does [put] return [False]. *)
Theorem C5_put_on_full_level_suspends
    (context : RequestContext.t) (handler : Handler Any) :
  RequestContext.priority context = Priority.NORMAL →
  (∃ s1 s2 s3 s4,
     put context handler (init 16) = Returned (true, s1)
     ∧ put context handler s1 = Returned (true, s2)
     ∧ put context handler s2 = Returned (true, s3)
     ∧ put context handler s3 = Returned (true, s4)
     ∧ size s4 Priority.NORMAL = 16 / 4
     ∧ put context handler s4 = Suspended)
  ∧ (∀ self self', put context handler self ≠ Returned (false, self'))
  ∧ (∀ self,
       AsyncioQueue.full (queues self (RequestContext.priority context)) = true →
       put context handler self = Suspended).
Proof.
  intros Hp. split_and!.
  - unfold put. rewrite Hp. do 4 (eexists). split_and!; reflexivity.
  - intros self self'. unfold put.
    by destruct (AsyncioQueue.full _).
  - intros self Hfull. unfold put. by rewrite Hfull.
Qed.

End RequestQueueProperties.

(** ** Execution with retries *)

Section RetryProperties.
Context {Any : Type}.
Import RequestRouter.

Implicit Types (handler : Handler Any) (context : RequestContext.t)
  (w : World.t) (e : Error) (last : option Error).

(** The surroundings after an invocation that failed with [e] in iteration
    [attempt]: the invocation is logged, and so is the sleep when an
    iteration remains. *)
Lemma retry_loop_failed handler context timeout attempts remaining attempt last w e :
  handler context timeout (World.awaited w) = Raise e →
  ∃ w', retry_loop handler context timeout attempts (S remaining) attempt last w
        = retry_loop handler context timeout attempts remaining (attempt + 1) (Some e) w'
    ∧ World.awaited w' = S (World.awaited w)
    ∧ World.events w' =
        World.events w ++ Invoke (World.awaited w)
          :: (if attempt <? attempts - 1
              then [Sleep (if is_timeout e then 2 ^ attempt else 1)] else [])
    ∧ World.time_time w' = World.time_time w
    ∧ World.time_reads w' = World.time_reads w.
Proof.
  intros He. cbn [retry_loop]. unfold World.await. rewrite He.
  eexists. split; [reflexivity|].
  destruct (attempt <? attempts - 1); cbn; rewrite <- ?app_assoc; done.
Qed.

Lemma retry_loop_returned handler context timeout attempts remaining attempt last w v :
  handler context timeout (World.awaited w) = Ok v →
  ∃ w', retry_loop handler context timeout attempts (S remaining) attempt last w
        = (Ok v, w')
    ∧ World.events w' = World.events w ++ [Invoke (World.awaited w)]
    ∧ World.time_time w' = World.time_time w
    ∧ World.time_reads w' = World.time_reads w.
Proof.
  intros Hv. cbn [retry_loop]. unfold World.await. rewrite Hv.
  eexists. split; [reflexivity|]. done.
Qed.

(** The loop only appends to the log and never reads [time.time()]. *)
Lemma retry_loop_frame handler context timeout attempts remaining :
  ∀ attempt last w,
  let w' := (retry_loop handler context timeout attempts remaining attempt last w).2 in
  (∃ post, World.events w' = World.events w ++ post)
  ∧ World.time_time w' = World.time_time w
  ∧ World.time_reads w' = World.time_reads w.
Proof.
  induction remaining as [|remaining IH]; intros attempt last w.
  - cbn. split; [|done]. exists []. by rewrite app_nil_r.
  - destruct (handler context timeout (World.awaited w)) as [v|e] eqn:Hout.
    + destruct (retry_loop_returned _ _ _ attempts remaining attempt last _ _ Hout)
        as (w1 & -> & Hev & Htt & Htr).
      cbn. eauto.
    + destruct (retry_loop_failed _ _ _ attempts remaining attempt last _ _ Hout)
        as (w1 & -> & _ & Hev & Htt & Htr).
      destruct (IH (attempt + 1) (Some e) w1) as ((post & Hpost) & Htt' & Htr').
      cbn zeta. rewrite Hpost, Hev, Htt', Htr', <- app_assoc. eauto.
Qed.

(** When the loop is entered with an iteration to run, the next thing
    logged is an invocation. *)
Lemma retry_loop_starts_with_invoke handler context timeout attempts remaining attempt last w :
  ∃ post,
    World.events (retry_loop handler context timeout attempts (S remaining) attempt last w).2
    = World.events w ++ Invoke (World.awaited w) :: post.
Proof.
  destruct (handler context timeout (World.awaited w)) as [v|e] eqn:Hout.
  - destruct (retry_loop_returned _ _ _ attempts remaining attempt last _ _ Hout)
      as (w1 & -> & Hev & _). cbn. eauto.
  - destruct (retry_loop_failed _ _ _ attempts remaining attempt last _ _ Hout)
      as (w1 & -> & _ & Hev & _).
    destruct (retry_loop_frame handler context timeout attempts remaining
                (attempt + 1) (Some e) w1) as ((post & Hpost) & _).
    cbn zeta in Hpost. rewrite Hpost, Hev, <- app_assoc. cbn. eauto.
Qed.

(** Success at invocation [k + 1] after [k] failures, with iterations to
    spare, is what the loop returns. *)
Lemma retry_loop_succeeds handler context timeout attempts v (k : nat) :
  ∀ remaining attempt last w,
  (k < remaining)%nat →
  (∀ j, (j < k)%nat →
        ∃ e, handler context timeout (World.awaited w + j)%nat = Raise e) →
  handler context timeout (World.awaited w + k)%nat = Ok v →
  (retry_loop handler context timeout attempts remaining attempt last w).1 = Ok v.
Proof.
  induction k as [|k IH]; intros remaining attempt last w Hk Hfail Hok;
    (destruct remaining as [|remaining]; [lia|]).
  - rewrite Nat.add_0_r in Hok.
    by destruct (retry_loop_returned _ _ _ attempts remaining attempt last _ _ Hok)
      as (w1 & -> & _).
  - destruct (Hfail 0%nat) as [e He]; [lia|]. rewrite Nat.add_0_r in He.
    destruct (retry_loop_failed _ _ _ attempts remaining attempt last _ _ He)
      as (w1 & -> & Haw & _).
    apply IH; [lia| |].
    + intros j Hj. rewrite Haw.
      destruct (Hfail (S j)) as [e' He']; [lia|].
      exists e'. by rewrite <- He', Nat.add_succ_r.
    + by rewrite Haw, <- Hok, Nat.add_succ_r.
Qed.

(** When every iteration fails, the loop ends by raising the exception of
    the last one. *)
Lemma retry_loop_exhausted handler context timeout attempts e (n : nat) :
  ∀ attempt last w,
  (∀ j, (j < n)%nat →
        ∃ e', handler context timeout (World.awaited w + j)%nat = Raise e') →
  handler context timeout (World.awaited w + n)%nat = Raise e →
  (retry_loop handler context timeout attempts (S n) attempt last w).1 = Raise e.
Proof.
  induction n as [|n IH]; intros attempt last w Hfail Hlast.
  - rewrite Nat.add_0_r in Hlast.
    by destruct (retry_loop_failed _ _ _ attempts 0%nat attempt last _ _ Hlast)
      as (w1 & -> & _).
  - destruct (Hfail 0%nat) as [e0 He0]; [lia|]. rewrite Nat.add_0_r in He0.
    destruct (retry_loop_failed _ _ _ attempts (S n) attempt last _ _ He0)
      as (w1 & -> & Haw & _).
    apply IH.
    + intros j Hj. rewrite Haw.
      destruct (Hfail (S j)) as [e' He']; [lia|].
      exists e'. by rewrite <- He', Nat.add_succ_r.
    + by rewrite Haw, <- Hlast, Nat.add_succ_r.
Qed.

(** The log around a failed iteration [i] after which an iteration
    remains. *)
Lemma retry_loop_backoff handler context timeout attempts e (i : nat) :
  ∀ remaining attempt last w,
  (S i < remaining)%nat →
  attempt + Z.of_nat i < attempts - 1 →
  (∀ j, (j < i)%nat →
        ∃ e', handler context timeout (World.awaited w + j)%nat = Raise e') →
  handler context timeout (World.awaited w + i)%nat = Raise e →
  ∃ pre post,
    World.events (retry_loop handler context timeout attempts remaining attempt last w).2
    = World.events w ++ pre
      ++ [Invoke (World.awaited w + i);
          Sleep (if is_timeout e then 2 ^ (attempt + Z.of_nat i) else 1);
          Invoke (World.awaited w + i + 1)]
      ++ post.
Proof.
  induction i as [|i IH]; intros remaining attempt last w Hrem Hatt Hfail Hi;
    (destruct remaining as [|remaining]; [lia|]).
  - rewrite Nat.add_0_r in *. rewrite Z.add_0_r in *.
    destruct (retry_loop_failed _ _ _ attempts remaining attempt last _ _ Hi)
      as (w1 & -> & Haw & Hev & _).
    destruct remaining as [|remaining]; [lia|].
    destruct (retry_loop_starts_with_invoke handler context timeout attempts
                remaining (attempt + 1) (Some e) w1) as (post & Hpost).
    rewrite Hpost, Hev, Haw.
    replace (attempt <? attempts - 1) with true by (symmetry; apply Z.ltb_lt; lia).
    exists [], post. rewrite <- app_assoc. cbn [app]. by rewrite Nat.add_1_r.
  - destruct (Hfail 0%nat) as [e0 He0]; [lia|]. rewrite Nat.add_0_r in He0.
    destruct (retry_loop_failed _ _ _ attempts remaining attempt last _ _ He0)
      as (w1 & -> & Haw & Hev & _).
    destruct (IH remaining (attempt + 1) (Some e0) w1) as (pre & post & Hpp).
    + lia.
    + lia.
    + intros j Hj. rewrite Haw.
      destruct (Hfail (S j)) as [e' He']; [lia|].
      exists e'. by rewrite <- He', Nat.add_succ_r.
    + by rewrite Haw, <- Hi, Nat.add_succ_r.
    + rewrite Hpp, Hev, Haw.
      replace (attempt + 1 + Z.of_nat i) with (attempt + Z.of_nat (S i)) by lia.
      replace (S (World.awaited w) + i)%nat with (World.awaited w + S i)%nat by lia.
      exists (Invoke (World.awaited w)
                :: (if attempt <? attempts - 1
                    then [Sleep (if is_timeout e0 then 2 ^ attempt else 1)] else [])
                ++ pre), post.
      rewrite <- !app_assoc. cbn [app]. by rewrite <- !app_assoc.
Qed.

(** C7, as the code has it.  After a failed attempt [i] (counted from 0)
    that leaves attempts to run, the router sleeps and only then invokes
    the handler again; the sleep lasts [2 ^ i] seconds when the attempt
    timed out and 1 second when the handler raised another error. *)
Theorem C7_backoff_after_failed_attempt
    handler context (timeout attempts : Z) w (i : nat) e :
  Z.of_nat i < attempts - 1 →
  (∀ j, (j < i)%nat →
        ∃ e', handler context timeout (World.awaited w + j)%nat = Raise e') →
  handler context timeout (World.awaited w + i)%nat = Raise e →
  ∃ pre post,
    World.events (_execute_with_retries handler context timeout attempts w).2
    = World.events w ++ pre
      ++ [Invoke (World.awaited w + i);
          Sleep (if is_timeout e then 2 ^ Z.of_nat i else 1);
          Invoke (World.awaited w + i + 1)]
      ++ post.
Proof.
  intros Hi Hfail He. unfold _execute_with_retries.
  destruct (retry_loop_backoff handler context timeout attempts e i
              (Z.to_nat attempts) 0 None w) as (pre & post & H); try done; try lia.
  exists pre, post. by rewrite H.
Qed.

End RetryProperties.

(** C7 as stated fails on a handler that raises: with three attempts the
    router sleeps 1 second after the attempt of index 1, not [2 ^ 1]. *)
Lemma C7_counterexample :
  let run := RequestRouter._execute_with_retries Sample.broken
               (Sample.context RequestType.CHAT Priority.NORMAL) 30 3 Sample.world in
  World.events run.2 = [Invoke 0; Sleep 1; Invoke 1; Sleep 1; Invoke 2]
  ∧ Sleep (2 ^ 1) ∉ World.events run.2.
Proof.
  intros run.
  assert (E : World.events run.2 = [Invoke 0; Sleep 1; Invoke 1; Sleep 1; Invoke 2])
    by reflexivity.
  split; [exact E|]. rewrite E. change (2 ^ 1) with 2. intros H.
  repeat (apply elem_of_cons in H as [H|H]; [discriminate H|]).
  by apply elem_of_nil in H.
Qed.

(** ** The dispatcher *)

Section RouterProperties.
Context {Any : Type}.
Import RequestRouter.

Implicit Types (self : RequestRouter.t Any) (handler : Handler Any)
  (context : RequestContext.t) (w : World.t) (rule : RouteRule.t)
  (handler_override : option (Handler Any)).

(** *** Rule matching *)

Lemma find_first_Some rules context rule :
  find_first rules context = Some rule →
  ∃ before after,
    rules = before ++ rule :: after
    ∧ Forall (λ r, ¬ matches r context) before
    ∧ matches rule context.
Proof.
  induction rules as [|r rules IH]; [done|]. cbn [find_first].
  destruct (RouteRule.condition r context) as [[]|] eqn:Hr.
  - intros [= <-]. exists [], rules. by split_and!.
  - intros (before & after & -> & Hb & Hm)%IH.
    exists (r :: before), after. split_and!; [done| |done].
    constructor; [|done]. unfold matches. by rewrite Hr.
  - intros (before & after & -> & Hb & Hm)%IH.
    exists (r :: before), after. split_and!; [done| |done].
    constructor; [|done]. unfold matches. by rewrite Hr.
Qed.

Lemma find_first_None rules context :
  find_first rules context = None ↔ Forall (λ r, ¬ matches r context) rules.
Proof.
  induction rules as [|r rules IH]; [done|]. cbn [find_first].
  rewrite Forall_cons. unfold matches at 1.
  destruct (RouteRule.condition r context) as [[]|].
  - split; [done|]. by intros [[] _].
  - rewrite IH. split; [by split|by intros [_ ?]].
  - rewrite IH. split; [by split|by intros [_ ?]].
Qed.

Lemma find_first_app rules rule after context :
  Forall (λ r, ¬ matches r context) rules →
  matches rule context →
  find_first (rules ++ rule :: after) context = Some rule.
Proof.
  intros Hb Hm. induction Hb as [|r rules Hr _ IH]; cbn [app find_first].
  - by rewrite Hm.
  - unfold matches in Hr.
    by destruct (RouteRule.condition r context) as [[]|].
Qed.

(** *** What the steps of [route_request] leave alone *)

Lemma check_rate_limit_frame rule context self w :
  let r := check_rate_limit rule context self w in
  routes r.1.2 = routes self
  ∧ handlers r.1.2 = handlers self
  ∧ stats r.1.2 = stats self
  ∧ World.awaited r.2 = World.awaited w
  ∧ World.events r.2 = World.events w
  ∧ World.time_time r.2 = World.time_time w
  ∧ World.time_reads r.2 = World.time_reads w.
Proof.
  unfold check_rate_limit.
  destruct (RouteRule.rate_limit rule) as [limit|]; [|done].
  destruct (limit =? 0); [done|]. cbn [World.read_now].
  by destruct (RateLimiter.is_allowed _ _ _ _ _) as [[] rl].
Qed.

(** The verdict of the rate check depends on the limiter and on the
    [datetime] clock only. *)
Lemma check_rate_limit_verdict rule context self w (s : RequestStats.t) :
  (check_rate_limit rule context (set_stats s self) (World.read_time w).2).1.1
  = (check_rate_limit rule context self w).1.1.
Proof.
  unfold check_rate_limit.
  destruct (RouteRule.rate_limit rule) as [limit|]; [|done].
  destruct (limit =? 0); [done|]. cbn.
  by destruct (RateLimiter.is_allowed _ _ _ _ _) as [[] rl].
Qed.

(** The counters and the [time.time()] clock across the [try] block. *)
Lemma route_request_try_stats self w context handler_override :
  let r := route_request_try self w context handler_override in
  let st := stats self in
  let st' := stats (router_after r) in
  RequestStats.total_requests st' = RequestStats.total_requests st + 1
  ∧ RequestStats.successful_requests st'
    = RequestStats.successful_requests st
      + (match result r with Ok _ => 1 | Raise _ => 0 end)
  ∧ RequestStats.failed_requests st' = RequestStats.failed_requests st
  ∧ RequestStats.average_response_time st' = RequestStats.average_response_time st
  ∧ World.time_time (world_after r) = World.time_time w
  ∧ World.time_reads (world_after r) = World.time_reads w.
Proof.
  unfold route_request_try.
  destruct (_find_matching_route _ context) as [rule|]; [|cbn; split_and!; (done || lia)].
  destruct (apply_priority_boost rule context) as [context'|e];
    [|cbn; split_and!; (done || lia)].
  pose proof (check_rate_limit_frame rule context'
                (set_stats (RequestStats.seen context (stats self)) self) w) as Hrl.
  destruct (check_rate_limit rule context' _ w) as [[err self2] w2].
  cbn [fst snd] in Hrl. destruct Hrl as (_ & _ & Hst & _ & _ & Htt & Htr).
  destruct err as [e|]; [cbn; rewrite Hst; cbn; split_and!; (done || lia)|].
  destruct (resolve_handler rule handler_override self2) as [handler|];
    [|cbn; rewrite Hst; cbn; split_and!; (done || lia)].
  unfold _execute_with_retries.
  pose proof (retry_loop_frame handler context' (RouteRule.timeout_seconds rule)
                (RouteRule.retry_attempts rule)
                (Z.to_nat (RouteRule.retry_attempts rule)) 0 None w2) as Hloop.
  destruct (retry_loop _ _ _ _ _ _ _ w2) as [[v|e] w3];
    cbn [snd] in Hloop; destruct Hloop as (_ & Htt' & Htr');
    cbn; rewrite Hst; cbn; split_and!; (congruence || lia).
Qed.

(** The counters after a call of [route_request], on every path. *)
Lemma route_request_counters self w context handler_override :
  let run := route_request self w context handler_override in
  let st := stats self in
  let st' := stats (router_after run) in
  (match result run with
   | Ok _ =>
       RequestStats.successful_requests st' = RequestStats.successful_requests st + 1
       ∧ RequestStats.failed_requests st' = RequestStats.failed_requests st
   | Raise _ =>
       RequestStats.successful_requests st' = RequestStats.successful_requests st
       ∧ RequestStats.failed_requests st' = RequestStats.failed_requests st + 1
   end)
  ∧ RequestStats.total_requests st' = RequestStats.total_requests st + 1.
Proof.
  unfold route_request. cbn [World.read_time].
  pose proof (route_request_try_stats self
                {| World.time_time := World.time_time w;
                   World.time_reads := S (World.time_reads w);
                   World.datetime_now := World.datetime_now w;
                   World.now_reads := World.now_reads w;
                   World.awaited := World.awaited w;
                   World.events := World.events w |}
                context handler_override) as Htry.
  cbv zeta in Htry.
  destruct (route_request_try self _ context handler_override)
    as [res context' self' w'].
  cbn [result router_after world_after context_after] in *.
  destruct Htry as (Htot & Hsucc & Hfail & _).
  unfold _update_response_time_stats.
  destruct res as [v|e]; cbn [stats set_stats RequestStats.failed
    RequestStats.successful_requests RequestStats.failed_requests
    RequestStats.total_requests];
    destruct (0 <? _); cbn; lia.
Qed.

(** C8. Whatever the outcome of [route_request], the router it leaves
    behind has the statistics updated: exactly one of the success and
    failure counters has grown, by exactly one (the success counter when a
    value is returned, the failure counter when an exception propagates),
    and the average is [(avg * (n - 1) + elapsed) / n] for [n] the new sum
    of the two counters and [elapsed] the difference of the two
    [time.time()] readings of the call. *)
Theorem C8_stats_updated_on_every_outcome self w context handler_override :
  0 ≤ RequestStats.successful_requests (stats self)
      + RequestStats.failed_requests (stats self) →
  let run := route_request self w context handler_override in
  let st := stats self in
  let st' := stats (router_after run) in
  let n := RequestStats.successful_requests st' + RequestStats.failed_requests st' in
  let elapsed :=
    PrimFloat.sub (World.time_time w (S (World.time_reads w)))
                  (World.time_time w (World.time_reads w)) in
  (match result run with
   | Ok _ =>
       RequestStats.successful_requests st' = RequestStats.successful_requests st + 1
       ∧ RequestStats.failed_requests st' = RequestStats.failed_requests st
   | Raise _ =>
       RequestStats.successful_requests st' = RequestStats.successful_requests st
       ∧ RequestStats.failed_requests st' = RequestStats.failed_requests st + 1
   end)
  ∧ n = RequestStats.successful_requests st + RequestStats.failed_requests st + 1
  ∧ RequestStats.total_requests st' = RequestStats.total_requests st + 1
  ∧ RequestStats.average_response_time st'
    = PrimFloat.div
        (PrimFloat.add
           (PrimFloat.mul (RequestStats.average_response_time st)
                          (float_of_int (n - 1)))
           elapsed)
        (float_of_int n).
Proof.
  intros Hnonneg. unfold route_request. cbn [World.read_time].
  pose proof (route_request_try_stats self
                {| World.time_time := World.time_time w;
                   World.time_reads := S (World.time_reads w);
                   World.datetime_now := World.datetime_now w;
                   World.now_reads := World.now_reads w;
                   World.awaited := World.awaited w;
                   World.events := World.events w |}
                context handler_override) as Htry.
  cbv zeta in Htry. cbn [World.time_time World.time_reads] in Htry.
  destruct (route_request_try self _ context handler_override)
    as [res context' self' w'].
  cbn [result router_after world_after context_after] in *.
  destruct Htry as (Htot & Hsucc & Hfail & Havg & Htt & Htr).
  unfold _update_response_time_stats.
  destruct res as [v|e]; cbn [stats set_stats RequestStats.failed
    RequestStats.successful_requests RequestStats.failed_requests
    RequestStats.total_requests RequestStats.average_response_time].
  - replace (0 <? _) with true by (symmetry; apply Z.ltb_lt; lia).
    cbn. rewrite Htt, Htr, Havg, Hsucc, Hfail. split_and!; (done || lia).
  - replace (0 <? _) with true by (symmetry; apply Z.ltb_lt; lia).
    cbn. rewrite Htt, Htr, Havg, Hsucc, Hfail. split_and!; (done || lia).
Qed.

(** *** Priority boost *)

Lemma of_value_value (p : Priority.t) : Priority.of_value (Priority.value p) = Some p.
Proof. by destruct p. Qed.

Lemma apply_priority_boost_clamped rule context :
  0 < RouteRule.priority_boost rule →
  ∃ p, apply_priority_boost rule context = Ok (RequestContext.set_priority p context)
       ∧ Priority.value p
         = Z.min 4 (Priority.value (RequestContext.priority context)
                    + RouteRule.priority_boost rule).
Proof.
  intros Hboost. unfold apply_priority_boost.
  replace (0 <? _) with true by (symmetry; apply Z.ltb_lt; lia).
  cbv zeta.
  set (v := Z.min 4 _).
  assert (Hv : v = 2 ∨ v = 3 ∨ v = 4).
  { unfold v. destruct (RequestContext.priority context); cbn; lia. }
  destruct Hv as [-> | [-> | ->]]; cbn; eauto.
Qed.

(** Once a rule has matched and the boost has been applied, the context
    object keeps the boosted priority on every path. *)
Lemma route_request_context self w context handler_override rule context' :
  _find_matching_route self context = Some rule →
  apply_priority_boost rule context = Ok context' →
  context_after (route_request self w context handler_override) = context'.
Proof.
  intros Hfind Hboost. unfold route_request. cbn [World.read_time context_after].
  unfold route_request_try.
  change (_find_matching_route (set_stats _ self) context)
    with (_find_matching_route self context).
  rewrite Hfind, Hboost.
  destruct (check_rate_limit _ _ _ _) as [[[e|] self2] w2]; [done|].
  destruct (resolve_handler _ _ _); [|done].
  by destruct (_execute_with_retries _ _ _ _ _) as [[v|e] w3].
Qed.

(** C4. When the matched rule carries a positive boost, the priority of
    the context after [route_request] is
    [min(CRITICAL, priority + boost)]: it never exceeds CRITICAL, and a
    context at CRITICAL stays there. *)
Theorem C4_priority_boost_clamped self w context handler_override rule :
  _find_matching_route self context = Some rule →
  0 < RouteRule.priority_boost rule →
  let boosted :=
    RequestContext.priority
      (context_after (route_request self w context handler_override)) in
  Priority.value boosted
  = Z.min (Priority.value Priority.CRITICAL)
          (Priority.value (RequestContext.priority context)
           + RouteRule.priority_boost rule)
  ∧ Priority.value boosted ≤ Priority.value Priority.CRITICAL
  ∧ (RequestContext.priority context = Priority.CRITICAL →
     boosted = Priority.CRITICAL).
Proof.
  intros Hfind Hboost.
  destruct (apply_priority_boost_clamped rule context Hboost) as (p & Hp & Hval).
  rewrite (route_request_context _ _ _ _ _ _ Hfind Hp).
  cbn [RequestContext.priority RequestContext.set_priority Priority.value].
  split_and!; [done|lia|].
  intros Hcrit. rewrite Hcrit in Hval. cbn in Hval.
  destruct p; cbn in Hval; (done || lia).
Qed.

(** *** Retries *)

(** With the rule matched, the rate check passed and the handler resolved,
    [route_request] returns or raises what [_execute_with_retries] does. *)
Lemma route_request_executes self w context handler_override rule context' handler :
  _find_matching_route self context = Some rule →
  apply_priority_boost rule context = Ok context' →
  (check_rate_limit rule context' self w).1.1 = None →
  resolve_handler rule handler_override self = Some handler →
  ∃ w2, World.awaited w2 = World.awaited w
    ∧ World.events w2 = World.events w
    ∧ result (route_request self w context handler_override)
      = (_execute_with_retries handler context'
           (RouteRule.timeout_seconds rule) (RouteRule.retry_attempts rule) w2).1.
Proof.
  intros Hfind Hboost Hrate Hres. unfold route_request.
  cbn [World.read_time result]. unfold route_request_try.
  change (_find_matching_route (set_stats _ self) context)
    with (_find_matching_route self context).
  rewrite Hfind, Hboost.
  pose proof (check_rate_limit_verdict rule context' self w
                (RequestStats.seen context (stats self))) as Hverdict.
  pose proof (check_rate_limit_frame rule context'
                (set_stats (RequestStats.seen context (stats self)) self)
                (World.read_time w).2) as Hframe.
  rewrite Hrate in Hverdict. cbn [World.read_time snd] in Hverdict, Hframe.
  destruct (check_rate_limit rule context' (set_stats _ self) _)
    as [[err self2] w2].
  cbn [fst snd] in *. subst err.
  destruct Hframe as (_ & Hh & _ & Haw & Hev & _).
  assert (Hres2 : resolve_handler rule handler_override self2 = Some handler).
  { unfold resolve_handler in *. by rewrite Hh. }
  rewrite Hres2. exists w2. split_and!; [done..|].
  by destruct (_execute_with_retries _ _ _ _ _) as [[v|e] w3].
Qed.

(** C2, as the code has it.  For a rule with [attempts >= 1] whose handler
    is reached (the rule is the one matched, the rate check admits, the
    handler is resolved): a handler that fails, by timeout or by raising,
    on its first [k < attempts] invocations and succeeds on the next makes
    [route_request] return that result; a handler that fails on all
    [attempts] invocations makes [route_request] raise the failure of the
    last invocation itself, the exception object that invocation raised,
    in no wrapper. *)
Theorem C2_retry_semantics
    self w context handler_override rule context' handler :
  _find_matching_route self context = Some rule →
  apply_priority_boost rule context = Ok context' →
  (check_rate_limit rule context' self w).1.1 = None →
  resolve_handler rule handler_override self = Some handler →
  1 ≤ RouteRule.retry_attempts rule →
  let attempts := Z.to_nat (RouteRule.retry_attempts rule) in
  let outcome (j : nat) :=
    handler context' (RouteRule.timeout_seconds rule) (World.awaited w + j)%nat in
  (∀ (k : nat) (v : Any),
     (k < attempts)%nat →
     (∀ j, (j < k)%nat → ∃ e, outcome j = Raise e) →
     outcome k = Ok v →
     result (route_request self w context handler_override) = Ok v)
  ∧ (∀ e,
       (∀ j, (j < attempts)%nat → ∃ e', outcome j = Raise e') →
       outcome (attempts - 1)%nat = Raise e →
       result (route_request self w context handler_override) = Raise e).
Proof.
  intros Hfind Hboost Hrate Hres Hatt attempts outcome.
  destruct (route_request_executes _ _ _ _ _ _ _ Hfind Hboost Hrate Hres)
    as (w2 & Haw & _ & ->).
  unfold _execute_with_retries. fold attempts. subst outcome. cbv beta.
  rewrite <- Haw. split.
  - intros k v Hk Hfail Hok. by eapply retry_loop_succeeds.
  - intros e Hfail Hlast.
    destruct attempts as [|n] eqn:Hn; [lia|].
    apply retry_loop_exhausted.
    + intros j Hj. apply Hfail. lia.
    + by replace (S n - 1)%nat with n in Hlast by lia.
Qed.

(** *** First match wins *)

Lemma check_rate_limit_set_routes rule context self w (rs : list RouteRule.t) :
  check_rate_limit rule context (set_routes rs self) w
  = let r := check_rate_limit rule context self w in
    (r.1.1, set_routes rs r.1.2, r.2).
Proof.
  unfold check_rate_limit.
  destruct (RouteRule.rate_limit rule) as [limit|]; [|done].
  destruct (limit =? 0); [done|]. cbn.
  by destruct (RateLimiter.is_allowed _ _ _ _ _) as [[] rl].
Qed.

(** [route_request] reads the rule list through [_find_matching_route]
    only: two lists that select the same rule give the same run. *)
Lemma route_request_routes self w context handler_override (rs : list RouteRule.t) :
  find_first rs context = find_first (routes self) context →
  let run := route_request self w context handler_override in
  let run' := route_request (set_routes rs self) w context handler_override in
  result run' = result run
  ∧ context_after run' = context_after run
  ∧ world_after run' = world_after run
  ∧ router_after run' = set_routes rs (router_after run).
Proof.
  intros Hsame. unfold route_request. cbn [World.read_time].
  unfold route_request_try, _find_matching_route.
  cbn [routes set_routes set_stats]. rewrite Hsame.
  destruct (find_first (routes self) context) as [rule|].
  2: { cbn. unfold _update_response_time_stats. cbn.
       by destruct (0 <? _). }
  destruct (apply_priority_boost rule context) as [context'|e].
  2: { cbn. unfold _update_response_time_stats. cbn.
       by destruct (0 <? _). }
  match goal with
  | |- context [check_rate_limit rule context' ?s ?w1] =>
      change s with (set_routes rs (set_stats (RequestStats.seen context (stats self)) self));
      rewrite (check_rate_limit_set_routes rule context'
                 (set_stats (RequestStats.seen context (stats self)) self) w1 rs)
  end.
  cbv zeta.
  destruct (check_rate_limit rule context' _ _) as [[[e|] self2] w2]; cbn [fst snd].
  { cbn. unfold _update_response_time_stats. cbn. by destruct (0 <? _). }
  change (resolve_handler rule handler_override (set_routes rs self2))
    with (resolve_handler rule handler_override self2).
  destruct (resolve_handler rule handler_override self2) as [handler|].
  2: { cbn. unfold _update_response_time_stats. cbn. by destruct (0 <? _). }
  destruct (_execute_with_retries _ _ _ _ _) as [[v|e] w3];
    cbn; unfold _update_response_time_stats; cbn; by destruct (0 <? _).
Qed.

(** What [route_request] does with the rule it has found: the rate check,
    the handler lookup and the execution are those of that rule. *)
Lemma route_request_dispatch self w context handler_override rule context' :
  _find_matching_route self context = Some rule →
  apply_priority_boost rule context = Ok context' →
  let run := route_request self w context handler_override in
  match (check_rate_limit rule context' self w).1.1 with
  | Some e =>
      result run = Raise e
      ∧ World.events (world_after run) = World.events w
      ∧ World.awaited (world_after run) = World.awaited w
  | None =>
      match resolve_handler rule handler_override self with
      | None =>
          result run = Raise (HandlerNotFound (RouteRule.handler rule))
          ∧ World.events (world_after run) = World.events w
          ∧ World.awaited (world_after run) = World.awaited w
      | Some handler =>
          ∃ w2,
            World.awaited w2 = World.awaited w
            ∧ World.events w2 = World.events w
            ∧ let exec :=
                _execute_with_retries handler context'
                  (RouteRule.timeout_seconds rule)
                  (RouteRule.retry_attempts rule) w2 in
              result run = exec.1
              ∧ World.events (world_after run) = World.events exec.2
              ∧ World.awaited (world_after run) = World.awaited exec.2
      end
  end.
Proof.
  intros Hfind Hboost. cbv zeta. unfold route_request.
  cbn [World.read_time result world_after]. unfold route_request_try.
  change (_find_matching_route (set_stats _ self) context)
    with (_find_matching_route self context).
  rewrite Hfind, Hboost.
  pose proof (check_rate_limit_verdict rule context' self w
                (RequestStats.seen context (stats self))) as Hverdict.
  pose proof (check_rate_limit_frame rule context'
                (set_stats (RequestStats.seen context (stats self)) self)
                (World.read_time w).2) as Hframe.
  cbn [World.read_time snd] in Hverdict, Hframe.
  destruct (check_rate_limit rule context' (set_stats _ self) _)
    as [[err self2] w2].
  cbn [fst snd] in Hverdict, Hframe. rewrite <- Hverdict.
  destruct Hframe as (_ & Hh & _ & Haw & Hev & _).
  destruct err as [e|]; [done|].
  assert (Hres : resolve_handler rule handler_override self2
                 = resolve_handler rule handler_override self).
  { unfold resolve_handler. by rewrite Hh. }
  rewrite Hres.
  destruct (resolve_handler rule handler_override self) as [handler|]; [|done].
  exists w2. split_and!; [done..| | |];
    by destruct (_execute_with_retries _ _ _ _ _) as [[v|e] w3].
Qed.

(** C1. [route_request] selects the first rule, in the order of the rule
    list, whose predicate returns true on the context: the rule found has
    only non-matching rules before it, a predicate that raises is passed
    over like one that returns false, and the rules after the first match
    have no influence on the run.  When no rule matches, the call raises
    the no-route error and no handler is invoked.  The rule selected is
    the one the call acts on: the context gets that rule's boost, a
    rejection comes from that rule's rate limit, the handler looked up is
    the one that rule names, and the handler resolved is invoked under
    that rule's timeout and attempts, its first result being what the
    call returns. *)
Theorem C1_first_match_wins self w context handler_override :
  let run := route_request self w context handler_override in
  (∀ rule, _find_matching_route self context = Some rule →
     ∃ before after,
       routes self = before ++ rule :: after
       ∧ Forall (λ r, ¬ matches r context) before
       ∧ matches rule context)
  ∧ (∀ rule rest, RouteRule.condition rule context = None →
       find_first (rule :: rest) context = find_first rest context)
  ∧ (∀ before rule after,
       routes self = before ++ rule :: after →
       Forall (λ r, ¬ matches r context) before →
       matches rule context →
       let run1 := route_request (set_routes [rule] self) w context handler_override in
       _find_matching_route self context = Some rule
       ∧ result run = result run1
       ∧ context_after run = context_after run1
       ∧ world_after run = world_after run1
       ∧ router_after run = set_routes (routes self) (router_after run1))
  ∧ (Forall (λ r, ¬ matches r context) (routes self) →
       _find_matching_route self context = None
       ∧ result run = Raise (NoRouteFound (RequestContext.request_type context))
       ∧ World.events (world_after run) = World.events w
       ∧ World.awaited (world_after run) = World.awaited w)
  ∧ (∀ before rule after context',
       routes self = before ++ rule :: after →
       Forall (λ r, ¬ matches r context) before →
       matches rule context →
       apply_priority_boost rule context = Ok context' →
       context_after run = context'
       ∧ (∀ e, (check_rate_limit rule context' self w).1.1 = Some e →
               result run = Raise e
               ∧ World.events (world_after run) = World.events w)
       ∧ ((check_rate_limit rule context' self w).1.1 = None →
          resolve_handler rule handler_override self = None →
          result run = Raise (HandlerNotFound (RouteRule.handler rule))
          ∧ World.events (world_after run) = World.events w)
       ∧ (∀ handler,
            (check_rate_limit rule context' self w).1.1 = None →
            resolve_handler rule handler_override self = Some handler →
            (∃ w2,
               World.awaited w2 = World.awaited w
               ∧ World.events w2 = World.events w
               ∧ result run
                 = (_execute_with_retries handler context'
                      (RouteRule.timeout_seconds rule)
                      (RouteRule.retry_attempts rule) w2).1
               ∧ World.events (world_after run)
                 = World.events
                     (_execute_with_retries handler context'
                        (RouteRule.timeout_seconds rule)
                        (RouteRule.retry_attempts rule) w2).2)
            ∧ (∀ v,
                 1 ≤ RouteRule.retry_attempts rule →
                 handler context' (RouteRule.timeout_seconds rule) (World.awaited w)
                 = Ok v →
                 result run = Ok v
                 ∧ World.events (world_after run)
                   = World.events w ++ [Invoke (World.awaited w)]
                 ∧ World.awaited (world_after run) = S (World.awaited w)))).
Proof.
  cbv zeta. split_and!.
  5: {
    intros before rule after context' Hroutes Hbefore Hmatch Hboost.
    assert (Hfind : _find_matching_route self context = Some rule).
    { unfold _find_matching_route. rewrite Hroutes. by apply find_first_app. }
    pose proof (route_request_dispatch self w context handler_override rule
                  context' Hfind Hboost) as Hrun.
    cbv zeta in Hrun.
    split_and!.
    - by apply (route_request_context _ _ _ _ rule).
    - intros e He. rewrite He in Hrun. by destruct Hrun as (? & ? & _).
    - intros Hrate Hres. rewrite Hrate, Hres in Hrun.
      by destruct Hrun as (? & ? & _).
    - intros handler Hrate Hres. rewrite Hrate, Hres in Hrun.
      destruct Hrun as (w2 & Haw & Hev & Hresult & Hevents & Hawaited).
      split; [by exists w2|].
      intros v Hatt Hv.
      unfold _execute_with_retries in Hresult, Hevents, Hawaited.
      destruct (Z.to_nat (RouteRule.retry_attempts rule)) as [|n] eqn:Hn; [lia|].
      rewrite <- Haw in Hv.
      destruct (retry_loop_returned handler context'
                  (RouteRule.timeout_seconds rule) (RouteRule.retry_attempts rule)
                  n 0 None w2 v Hv) as (w3 & Hloop & Hev3 & _).
      rewrite Hloop in Hresult, Hevents, Hawaited. cbn [fst snd] in *.
      assert (Haw3 : World.awaited w3 = S (World.awaited w2)).
      { cbn [retry_loop] in Hloop. unfold World.await in Hloop.
        rewrite Hv in Hloop. by injection Hloop as <-. }
      split_and!; [done| |].
      + by rewrite Hevents, Hev3, Hev, Haw.
      + by rewrite Hawaited, Haw3, Haw. }
  - intros rule Hfind. by apply find_first_Some.
  - intros rule rest Hraise. cbn [find_first]. by rewrite Hraise.
  - intros before rule after Hroutes Hbefore Hmatch.
    assert (Hfind : _find_matching_route self context = Some rule).
    { unfold _find_matching_route. rewrite Hroutes. by apply find_first_app. }
    split; [done|].
    destruct (route_request_routes (set_routes [rule] self) w context
                handler_override (routes self)) as (Hr & Hc & Hw & Hrt).
    { cbn [routes set_routes find_first]. rewrite Hmatch. apply Hfind. }
    assert (Hself : set_routes (routes self) (set_routes [rule] self) = self)
      by by destruct self.
    rewrite Hself in *. done.
  - intros Hnone. apply find_first_None in Hnone.
    split; [done|].
    unfold route_request. cbn [World.read_time]. unfold route_request_try.
    change (_find_matching_route (set_stats _ self) context)
      with (find_first (routes self) context).
    rewrite Hnone. done.
Qed.

(** *** The snapshot *)

(** The counters of a router that occurs are not negative, and every
    request counted has been counted as a success or as a failure. *)
Lemma reachable_counters self :
  reachable self →
  0 ≤ RequestStats.successful_requests (stats self)
  ∧ 0 ≤ RequestStats.failed_requests (stats self)
  ∧ RequestStats.successful_requests (stats self)
    + RequestStats.failed_requests (stats self)
    = RequestStats.total_requests (stats self).
Proof.
  induction 1 as [self now Hfresh| | |self w context handler_override _ IH|];
    try done.
  - by rewrite Hfresh.
  - destruct IH as (Hs & Hf & Htot).
    destruct (route_request_counters self w context handler_override)
      as (Hres & Htot').
    destruct (result _); lia.
Qed.

(** C9, as the code has it.  The success rate of the snapshot is a
    percentage: the successful requests divided by the total (by 1 when
    the total is 0), times 100.  For a router that occurs it is 0 when the
    total is 0. *)
Theorem C9_success_rate_is_a_percentage :
  (∀ self,
     success_rate (get_stats self)
     = PrimFloat.mul
         (int_truediv (RequestStats.successful_requests (stats self))
                      (Z.max 1 (RequestStats.total_requests (stats self))))
         (float_of_int 100))
  ∧ (∀ self,
       0 < RequestStats.total_requests (stats self) →
       success_rate (get_stats self)
       = PrimFloat.mul
           (int_truediv (RequestStats.successful_requests (stats self))
                        (RequestStats.total_requests (stats self)))
           (float_of_int 100))
  ∧ (∀ self,
       reachable self →
       RequestStats.total_requests (stats self) = 0 →
       success_rate (get_stats self) = PrimFloat.zero).
Proof.
  split_and!.
  - done.
  - intros self Htot. cbn [success_rate get_stats]. by rewrite Z.max_r by lia.
  - intros self Hreach Htot.
    destruct (reachable_counters self Hreach) as (Hs & Hf & Hsum).
    cbn [success_rate get_stats].
    replace (RequestStats.successful_requests (stats self)) with 0 by lia.
    rewrite Htot. reflexivity.
Qed.

End RouterProperties.

(** C9 as stated fails by a factor of 100: after one success in two
    requests the snapshot reports 50, where the claimed quotient is 0.5. *)
Lemma C9_counterexample :
  let st := RequestRouter.stats Sample.half_successful in
  RequestStats.successful_requests st = 1
  ∧ RequestStats.total_requests st = 2
  ∧ RequestRouter.success_rate (RequestRouter.get_stats Sample.half_successful)
    = float_of_int 50
  ∧ RequestRouter.success_rate (RequestRouter.get_stats Sample.half_successful)
    ≠ int_truediv (RequestStats.successful_requests st)
                  (RequestStats.total_requests st).
Proof.
  cbv zeta. split_and!.
  - vm_compute. reflexivity.
  - vm_compute. reflexivity.
  - vm_compute. reflexivity.
  - intros H.
    apply (f_equal (λ x, PrimFloat.ltb x (float_of_int 1))) in H.
    vm_compute in H. discriminate H.
Qed.

(** C2 as stated fails on its second half: with the three attempts of the
    chat rule all timing out, what [route_request] raises is the bare
    [asyncio.TimeoutError] of the third invocation, the very outcome of
    that invocation, and not an exception for exhausted retries that wraps
    it (the one such exception of the module, "All retry attempts failed",
    is not what is raised either). *)
Lemma C2_counterexample :
  let chat := Sample.context RequestType.CHAT Priority.NORMAL in
  let run := RequestRouter.route_request (Sample.router Sample.sleepy)
               Sample.world chat None in
  RequestRouter.result run = Raise TimeoutError
  ∧ RequestRouter.result run = Sample.sleepy chat 30 2%nat
  ∧ World.awaited (RequestRouter.world_after run) = 3%nat
  ∧ RequestRouter.result run ≠ Raise AllRetryAttemptsFailed.
Proof.
  cbv zeta.
  assert (E : RequestRouter.result
                (RequestRouter.route_request (Sample.router Sample.sleepy)
                   Sample.world (Sample.context RequestType.CHAT Priority.NORMAL) None)
              = Raise TimeoutError) by (vm_compute; reflexivity).
  split_and!.
  - exact E.
  - rewrite E. reflexivity.
  - vm_compute. reflexivity.
  - rewrite E. discriminate.
Qed.

(** ** The properties at sample values *)

Lemma C1_witness :
  RequestRouter._find_matching_route Sample.overlapping_router
    (Sample.context RequestType.CHAT Priority.NORMAL)
  = Some Sample.chat_rule
  ∧ RequestRouter.result
      (RequestRouter.route_request Sample.overlapping_router Sample.world
         (Sample.context RequestType.CHAT Priority.NORMAL) None)
    = Ok "r1"
  ∧ World.events
      (RequestRouter.world_after
         (RequestRouter.route_request Sample.overlapping_router Sample.world
            (Sample.context RequestType.CHAT Priority.NORMAL) None))
    = World.events Sample.world ++ [Invoke (World.awaited Sample.world)].
Proof.
  destruct (C1_first_match_wins Sample.overlapping_router Sample.world
              (Sample.context RequestType.CHAT Priority.NORMAL) None)
    as (_ & _ & Hlater & _ & Hacts).
  destruct (Hlater [Sample.raising_rule] Sample.chat_rule [Sample.catch_all_rule])
    as [Hfind _].
  { reflexivity. }
  { repeat constructor. discriminate. }
  { reflexivity. }
  destruct (Hacts [Sample.raising_rule] Sample.chat_rule [Sample.catch_all_rule]
              (Sample.context RequestType.CHAT Priority.NORMAL))
    as (_ & _ & _ & Hhandler).
  { reflexivity. }
  { repeat constructor. discriminate. }
  { reflexivity. }
  { reflexivity. }
  destruct (Hhandler Sample.echo) as [_ Hfirst].
  { vm_compute. reflexivity. }
  { vm_compute. reflexivity. }
  destruct (Hfirst "r1") as (Hresult & Hevents & _).
  { simpl. lia. }
  { reflexivity. }
  split_and!; [exact Hfind|exact Hresult|exact Hevents].
Defined.

Lemma C2_witness :
  RequestRouter.result
    (RequestRouter.route_request (Sample.router Sample.flaky) Sample.world
       (Sample.context RequestType.CHAT Priority.NORMAL) None)
  = Ok "r1".
Proof.
  destruct (C2_retry_semantics (Sample.router Sample.flaky) Sample.world
              (Sample.context RequestType.CHAT Priority.NORMAL) None
              Sample.chat_rule
              (Sample.context RequestType.CHAT Priority.NORMAL) Sample.flaky)
    as [Hsucceeds _].
  - reflexivity.
  - reflexivity.
  - vm_compute. reflexivity.
  - vm_compute. reflexivity.
  - simpl. lia.
  - apply (Hsucceeds 1%nat "r1").
    + simpl. lia.
    + intros [|j] Hj; [|lia]. exists (HandlerError "boom"). reflexivity.
    + reflexivity.
Defined.

Lemma C3_witness :
  RateLimiter.get_remaining 20000000 Sample.key 2 1 Sample.after_three = 0.
Proof.
  destruct (C3_sliding_window_limit_two Sample.key RateLimiter.init
              0 10000000 20000000 20000000 90000000)
    as (_ & Hremaining & _).
  - reflexivity.
  - lia.
  - lia.
  - lia.
  - unfold timedelta_minutes. lia.
  - unfold timedelta_minutes. lia.
  - exact Hremaining.
Defined.

Lemma C4_witness :
  RequestContext.priority
    (RequestRouter.context_after
       (RequestRouter.route_request (Sample.router Sample.echo) Sample.world
          (Sample.context RequestType.ADMIN Priority.CRITICAL) None))
  = Priority.CRITICAL.
Proof.
  destruct (C4_priority_boost_clamped (Sample.router Sample.echo) Sample.world
              (Sample.context RequestType.ADMIN Priority.CRITICAL) None
              (RequestRouter.default_rule "admin_requests" RequestType.ADMIN
                 "handle_admin" 2 60 10))
    as (_ & _ & Hcritical).
  - reflexivity.
  - simpl. lia.
  - apply Hcritical. reflexivity.
Defined.

Lemma C5_witness :
  ∃ s1 s2 s3 s4,
    RequestQueue.put (Sample.context RequestType.CHAT Priority.NORMAL) Sample.echo
      (RequestQueue.init 16) = Returned (true, s1)
    ∧ RequestQueue.put (Sample.context RequestType.CHAT Priority.NORMAL) Sample.echo s1
      = Returned (true, s2)
    ∧ RequestQueue.put (Sample.context RequestType.CHAT Priority.NORMAL) Sample.echo s2
      = Returned (true, s3)
    ∧ RequestQueue.put (Sample.context RequestType.CHAT Priority.NORMAL) Sample.echo s3
      = Returned (true, s4)
    ∧ RequestQueue.size s4 Priority.NORMAL = 16 / 4
    ∧ RequestQueue.put (Sample.context RequestType.CHAT Priority.NORMAL) Sample.echo s4
      = Suspended.
Proof.
  destruct (C5_put_on_full_level_suspends
              (Sample.context RequestType.CHAT Priority.NORMAL) Sample.echo)
    as (Hfifth & _).
  - reflexivity.
  - exact Hfifth.
Defined.

Lemma C6_witness :
  ∃ s1 s2,
    RequestQueue.put (Sample.context RequestType.CHAT Priority.LOW) Sample.echo
      (RequestQueue.init 1000) = Returned (true, s1)
    ∧ RequestQueue.put (Sample.context RequestType.ADMIN Priority.CRITICAL)
        Sample.broken s1 = Returned (true, s2)
    ∧ (RequestQueue.drain 3 s2).1
      = [(Sample.context RequestType.ADMIN Priority.CRITICAL, Sample.broken);
         (Sample.context RequestType.CHAT Priority.LOW, Sample.echo)].
Proof.
  destruct (C6_get_highest_priority_then_fifo (Any := string))
    as (_ & _ & _ & Htwo & _).
  apply (Htwo (Sample.context RequestType.CHAT Priority.LOW)
              (Sample.context RequestType.ADMIN Priority.CRITICAL)
              Sample.echo Sample.broken 1000).
  - reflexivity.
  - reflexivity.
Defined.

Lemma C7_witness :
  ∃ pre post,
    World.events
      (RequestRouter._execute_with_retries Sample.sleepy
         (Sample.context RequestType.CHAT Priority.NORMAL) 1 3 Sample.world).2
    = World.events Sample.world ++ pre
      ++ [Invoke (World.awaited Sample.world + 1);
          Sleep (if is_timeout TimeoutError then 2 ^ Z.of_nat 1 else 1);
          Invoke (World.awaited Sample.world + 1 + 1)]
      ++ post.
Proof.
  apply (C7_backoff_after_failed_attempt Sample.sleepy
           (Sample.context RequestType.CHAT Priority.NORMAL) 1 3 Sample.world
           1%nat TimeoutError).
  - simpl. lia.
  - intros j Hj. exists TimeoutError. reflexivity.
  - reflexivity.
Defined.

Lemma C8_witness :
  let run := RequestRouter.route_request (Sample.router Sample.echo) Sample.world
               (Sample.context RequestType.CHAT Priority.NORMAL) None in
  RequestStats.successful_requests (RequestRouter.stats (RequestRouter.router_after run))
  + RequestStats.failed_requests (RequestRouter.stats (RequestRouter.router_after run))
  = RequestStats.successful_requests (RequestRouter.stats (Sample.router Sample.echo))
    + RequestStats.failed_requests (RequestRouter.stats (Sample.router Sample.echo))
    + 1.
Proof.
  destruct (C8_stats_updated_on_every_outcome (Sample.router Sample.echo)
              Sample.world (Sample.context RequestType.CHAT Priority.NORMAL) None)
    as (_ & Hsum & _).
  - simpl. lia.
  - exact Hsum.
Defined.

Lemma C9_witness :
  RequestRouter.success_rate (RequestRouter.get_stats (Sample.router Sample.echo))
  = PrimFloat.zero.
Proof.
  destruct (C9_success_rate_is_a_percentage (Any := string)) as (_ & _ & Hzero).
  apply Hzero.
  - apply RequestRouter.reachable_register_handler.
    apply (RequestRouter.reachable_fresh _ 0). reflexivity.
  - reflexivity.
Defined.

Lemma C10_witness :
  length (RateLimiter.in_window 20000000 Sample.key 1 Sample.after_three)
  = length (RateLimiter.in_window 20000000 Sample.key 1 Sample.after_two).
Proof.
  destruct (C10_rejection_consumes_no_quota 20000000 Sample.key 2 1
              Sample.after_two Sample.after_three)
    as (_ & _ & Hcount & _).
  - lia.
  - vm_compute. reflexivity.
  - exact Hcount.
Defined.

(** * Further properties *)

(** ** The rate limiter *)

Section RateLimiterFurther.
Import RateLimiter.

Lemma recent_app (a : datetime) (l1 l2 : list datetime) :
  recent a (l1 ++ l2) = recent a l1 ++ recent a l2.
Proof. apply filter_app. Qed.

(** X1. A call of [is_allowed] for one key is invisible to every other
    key: their entries, what [get_remaining] reports for them and the
    verdict of their next call are what they would have been without it. *)
Theorem X1_keys_are_independent
    (now now' : datetime) (key key' : string) (limit limit' w w' : Z) (self : t) :
  key' ≠ key →
  let self1 := (is_allowed now key limit w self).2 in
  requests self1 !! key' = requests self !! key'
  ∧ get_remaining now' key' limit' w' self1 = get_remaining now' key' limit' w' self
  ∧ (is_allowed now' key' limit' w' self1).1 = (is_allowed now' key' limit' w' self).1.
Proof.
  intros Hne. cbv zeta.
  assert (Hsame : requests (is_allowed now key limit w self).2 !! key'
                  = requests self !! key').
  { rewrite is_allowed_in_window.
    destruct (limit <=? _); cbn [snd requests]; by rewrite lookup_insert_ne. }
  split_and!.
  - done.
  - unfold get_remaining. by rewrite Hsame.
  - rewrite (is_allowed_in_window now' key' limit' w'
               (is_allowed now key limit w self).2),
            (is_allowed_in_window now' key' limit' w' self).
    unfold in_window. rewrite Hsame.
    by destruct (limit' <=? _).
Qed.

Lemma X1_witness :
  get_remaining 20000000 "u2:chat" 2 1 Sample.after_three
  = get_remaining 20000000 "u2:chat" 2 1 Sample.after_two.
Proof.
  destruct (X1_keys_are_independent 20000000 20000000 Sample.key "u2:chat"
              2 2 1 1 Sample.after_two) as (_ & Hremaining & _).
  - discriminate.
  - exact Hremaining.
Defined.

(** An admission lowers [get_remaining] at its instant by one. *)
Lemma admission_lowers_remaining
    (now : datetime) (key : string) (limit w : Z) (self : t) :
  0 < w →
  (is_allowed now key limit w self).1 = true →
  get_remaining now key limit w (is_allowed now key limit w self).2
  = get_remaining now key limit w self - 1.
Proof.
  intros Hw. rewrite is_allowed_in_window. unfold get_remaining, in_window.
  destruct (requests self !! key) as [l|] eqn:Hl; cbn [from_option id].
  - destruct (Z.leb_spec limit
                (Z.of_nat (length (recent (now - timedelta_minutes w) l))));
      cbn [fst snd requests]; [done|]. intros _.
    rewrite lookup_insert_eq, recent_app.
    rewrite recent_recent by lia.
    rewrite (recent_all _ [now])
      by (repeat constructor; unfold timedelta_minutes; lia).
    rewrite length_app. cbn [length]. lia.
  - change (recent (now - timedelta_minutes w) []) with (@nil Z). cbn [length].
    destruct (Z.leb_spec limit (Z.of_nat 0)); cbn [fst snd requests]; [done|].
    intros _. rewrite lookup_insert_eq. cbn [app].
    rewrite (recent_all _ [now])
      by (repeat constructor; unfold timedelta_minutes; lia).
    cbn [length]. lia.
Qed.

(** X2. [is_allowed] admits exactly when [get_remaining], read at the same
    instant, is positive; and with a positive window an admission lowers
    what [get_remaining] reports at that instant by exactly one. *)
Theorem X2_admission_agrees_with_remaining
    (now : datetime) (key : string) (limit w : Z) (self : t) :
  ((is_allowed now key limit w self).1 = true
   ↔ 0 < get_remaining now key limit w self)
  ∧ (0 < w →
     (is_allowed now key limit w self).1 = true →
     get_remaining now key limit w (is_allowed now key limit w self).2
     = get_remaining now key limit w self - 1).
Proof.
  rewrite is_allowed_in_window. unfold get_remaining, in_window.
  destruct (requests self !! key) as [l|] eqn:Hl; cbn [from_option id].
  - destruct (Z.leb_spec limit
                (Z.of_nat (length (recent (now - timedelta_minutes w) l))));
      cbn [fst snd requests].
    + split; [split; [done|lia]|done].
    + split; [split; [lia|done]|]. intros Hw _.
      rewrite lookup_insert_eq, recent_app.
      rewrite recent_recent by lia.
      rewrite (recent_all _ [now])
        by (repeat constructor; unfold timedelta_minutes; lia).
      rewrite length_app. cbn [length]. lia.
  - change (recent (now - timedelta_minutes w) []) with (@nil Z). cbn [length].
    destruct (Z.leb_spec limit (Z.of_nat 0)); cbn [fst snd requests].
    + split; [split; [done|lia]|done].
    + split; [split; [lia|done]|]. intros Hw _.
      rewrite lookup_insert_eq. cbn [app].
      rewrite (recent_all _ [now])
        by (repeat constructor; unfold timedelta_minutes; lia).
      cbn [length]. lia.
Qed.

Lemma X2_witness :
  get_remaining 10000000 Sample.key 2 1 Sample.after_two
  = get_remaining 10000000 Sample.key 2 1
      (is_allowed 0 Sample.key 2 1 RateLimiter.init).2 - 1.
Proof.
  destruct (X2_admission_agrees_with_remaining 10000000 Sample.key 2 1
              (is_allowed 0 Sample.key 2 1 RateLimiter.init).2) as (_ & Hstep).
  apply Hstep.
  - lia.
  - vm_compute. reflexivity.
Defined.

(** X3. Under a limit that is not negative the limiter never holds more
    than [limit] timestamps for a key: if that is so before a run of
    [is_allowed] calls, for any keys and clock readings, it is so after. *)
Theorem X3_entries_stay_within_limit
    (calls : list (datetime * string)) (limit w : Z) :
  0 ≤ limit →
  ∀ self,
    (∀ key l, requests self !! key = Some l → Z.of_nat (length l) ≤ limit) →
    ∀ key l, requests (replay calls limit w self) !! key = Some l →
             Z.of_nat (length l) ≤ limit.
Proof.
  intros Hlimit. induction calls as [|[now k] calls IH]; intros self Hinv; [done|].
  cbn [replay]. apply IH. intros key l.
  rewrite is_allowed_in_window.
  pose proof (recent_length_le (now - timedelta_minutes w)
                (default [] (requests self !! k))) as Hle.
  fold (in_window now k w self) in Hle.
  assert (Hold : Z.of_nat (length (default [] (requests self !! k))) ≤ limit).
  { destruct (requests self !! k) as [l0|] eqn:Hk; [by eapply Hinv|cbn; lia]. }
  destruct (Z.leb_spec limit (Z.of_nat (length (in_window now k w self))));
    cbn [snd requests]; (destruct (decide (key = k)) as [->|Hne];
      [rewrite lookup_insert_eq; intros [= <-]
      |rewrite lookup_insert_ne by done; apply Hinv]).
  - lia.
  - rewrite length_app. cbn [length]. lia.
Qed.

Lemma X3_witness :
  ∃ l, requests Sample.after_three !! Sample.key = Some l
       ∧ Z.of_nat (length l) ≤ 2.
Proof.
  exists [0; 10000000]. split; [vm_compute; reflexivity|].
  apply (X3_entries_stay_within_limit
           [(0, Sample.key); (10000000, Sample.key); (20000000, Sample.key)]
           2 1 ltac:(lia) RateLimiter.init
           ltac:(intros key l H; discriminate H) Sample.key).
  vm_compute. reflexivity.
Defined.

End RateLimiterFurther.

(** ** The priority queue *)

Section RequestQueueFurther.
Context {Any : Type}.
Import RequestQueue.

Implicit Types (self : RequestQueue.t Any) (p : Priority.t) (x : Item Any).

Lemma size_set_queue_tail self p x rest p' :
  AsyncioQueue.items (queues self p) = x :: rest →
  size (set_queue p (tail_of self p) self) p'
  = size self p' - (if decide (p' = p) then 1 else 0).
Proof.
  intros Hp. unfold size. destruct (decide (p' = p)) as [->|Hne].
  - rewrite queues_set_queue_eq. unfold tail_of, AsyncioQueue.qsize.
    simpl AsyncioQueue.items. rewrite Hp. cbn [tail length]. lia.
  - rewrite queues_set_queue_ne by done. lia.
Qed.

Lemma size_put self (context : RequestContext.t) (handler : Handler Any) b self' p' :
  put context handler self = Returned (b, self') →
  b = true
  ∧ AsyncioQueue.full (queues self (RequestContext.priority context)) = false
  ∧ AsyncioQueue.maxsize (queues self' p') = AsyncioQueue.maxsize (queues self p')
  ∧ size self' p'
    = size self p'
      + (if decide (p' = RequestContext.priority context) then 1 else 0).
Proof.
  unfold put.
  destruct (AsyncioQueue.full _) eqn:Hfull; [done|]. intros [= <- <-].
  split_and!; [done..| |].
  - destruct (decide (p' = RequestContext.priority context)) as [->|Hne].
    + by rewrite queues_set_queue_eq.
    + by rewrite queues_set_queue_ne.
  - unfold size. destruct (decide (p' = RequestContext.priority context)) as [->|Hne].
    + rewrite queues_set_queue_eq. unfold AsyncioQueue.qsize, AsyncioQueue.push.
      simpl AsyncioQueue.items. rewrite length_app. cbn [length].
      rewrite Nat2Z.inj_add. reflexivity.
    + rewrite queues_set_queue_ne by done. lia.
Qed.

(** What [get] does, in every state. *)
Lemma get_cases self :
  (get self = (None, self) ∧ ∀ p, AsyncioQueue.items (queues self p) = [])
  ∨ (∃ p x rest,
       AsyncioQueue.items (queues self p) = x :: rest
       ∧ (∀ p', Priority.value p < Priority.value p' →
                AsyncioQueue.items (queues self p') = [])
       ∧ get self = (Some x, set_queue p (tail_of self p) self)).
Proof.
  destruct (AsyncioQueue.items (queues self Priority.CRITICAL)) as [|xc rc] eqn:Hc.
  2: { right. exists Priority.CRITICAL, xc, rc. split_and!; [done| |].
       - intros []; cbn; lia.
       - apply (get_highest _ _ _ _ Hc). intros []; cbn; lia. }
  destruct (AsyncioQueue.items (queues self Priority.HIGH)) as [|xh rh] eqn:Hh.
  2: { right. exists Priority.HIGH, xh, rh.
       assert (∀ p', Priority.value Priority.HIGH < Priority.value p' →
                     AsyncioQueue.items (queues self p') = [])
         by (intros []; cbn; (done || lia)).
       split_and!; [done..|]. by apply (get_highest _ _ _ _ Hh). }
  destruct (AsyncioQueue.items (queues self Priority.NORMAL)) as [|xn rn] eqn:Hn.
  2: { right. exists Priority.NORMAL, xn, rn.
       assert (∀ p', Priority.value Priority.NORMAL < Priority.value p' →
                     AsyncioQueue.items (queues self p') = [])
         by (intros []; cbn; (done || lia)).
       split_and!; [done..|]. by apply (get_highest _ _ _ _ Hn). }
  destruct (AsyncioQueue.items (queues self Priority.LOW)) as [|xl rl] eqn:Hl.
  2: { right. exists Priority.LOW, xl, rl.
       assert (∀ p', Priority.value Priority.LOW < Priority.value p' →
                     AsyncioQueue.items (queues self p') = [])
         by (intros []; cbn; (done || lia)).
       split_and!; [done..|]. by apply (get_highest _ _ _ _ Hl). }
  left. assert (∀ p, AsyncioQueue.items (queues self p) = []) by by intros [].
  split; [|done]. by apply get_all_empty.
Qed.

Lemma size_nonneg self p : 0 ≤ size self p.
Proof. unfold size, AsyncioQueue.qsize. lia. Qed.

Lemma size_zero self p :
  size self p = 0 ↔ AsyncioQueue.items (queues self p) = [].
Proof.
  unfold size, AsyncioQueue.qsize.
  destruct (AsyncioQueue.items (queues self p)); cbn [length]; split; (done || lia).
Qed.

(** The capacity of the levels never changes. *)
Lemma reachable_maxsize (max_size : Z) self :
  reachable max_size self →
  ∀ p, AsyncioQueue.maxsize (queues self p) = max_size / 4.
Proof.
  induction 1 as [|self context handler b self' _ IH Hput|self _ IH]; intros p.
  - done.
  - destruct (size_put _ _ _ _ _ p Hput) as (_ & _ & Hmax & _). congruence.
  - destruct (get_cases self) as [[-> _]|(p0 & x & rest & Hp0 & _ & ->)];
      cbn [snd]; [done|].
    destruct (decide (p = p0)) as [->|Hne].
    + rewrite queues_set_queue_eq. unfold tail_of. cbn. apply IH.
    + by rewrite queues_set_queue_ne.
Qed.

(** X4. Every level of a queue made by [RequestQueue(max_size)] keeps the
    capacity [max_size // 4], and when that capacity is positive no level
    ever holds more items than it, whatever [put]s and [get]s are made. *)
Theorem X4_levels_stay_within_capacity (max_size : Z) self :
  reachable max_size self →
  ∀ p, AsyncioQueue.maxsize (queues self p) = max_size / 4
       ∧ 0 ≤ size self p
       ∧ (0 < max_size / 4 → size self p ≤ max_size / 4).
Proof.
  intros Hreach p.
  split_and!; [by apply reachable_maxsize|apply size_nonneg|].
  intros Hpos. revert p.
  induction Hreach as [|self context handler b self' Hreach IH Hput|self Hreach IH];
    intros p.
  - unfold size, AsyncioQueue.qsize. cbn. lia.
  - destruct (size_put _ _ _ _ _ p Hput) as (_ & Hfull & _ & Hsize).
    rewrite Hsize.
    destruct (decide (p = RequestContext.priority context)) as [->|];
      [|specialize (IH p); lia].
    unfold AsyncioQueue.full in Hfull.
    rewrite (reachable_maxsize _ _ Hreach) in Hfull.
    destruct (Z.leb_spec (max_size / 4) 0); [lia|].
    apply Z.leb_gt in Hfull. unfold size. lia.
  - destruct (get_cases self) as [[-> _]|(p0 & x & rest & Hp0 & _ & ->)];
      cbn [snd]; [apply IH|].
    rewrite (size_set_queue_tail _ _ _ _ _ Hp0).
    specialize (IH p). destruct (decide (p = p0)); lia.
Qed.

(** X5. A queue made with [max_size] below 4 has capacity [max_size // 4]
    at most 0 on every level, which [asyncio.Queue] takes as no bound at
    all: [put] never waits on it, however many items it holds. *)
Theorem X5_small_max_size_means_unbounded (max_size : Z) self
    (context : RequestContext.t) (handler : Handler Any) :
  max_size < 4 →
  reachable max_size self →
  ∃ self', put context handler self = Returned (true, self')
           ∧ size self' (RequestContext.priority context)
             = size self (RequestContext.priority context) + 1.
Proof.
  intros Hsmall Hreach.
  pose proof (reachable_maxsize max_size self Hreach
                (RequestContext.priority context)) as Hcap.
  assert (Hfull : AsyncioQueue.full (queues self (RequestContext.priority context))
                  = false).
  { unfold AsyncioQueue.full. rewrite Hcap.
    destruct (Z.leb_spec (max_size / 4) 0) as [|Hpos]; [done|].
    assert (max_size / 4 < 1) by (apply Z.div_lt_upper_bound; lia). lia. }
  destruct (put_not_full self context handler Hfull) as (self' & Hput & Hitems & _).
  exists self'. split; [done|].
  unfold size, AsyncioQueue.qsize. rewrite Hitems, length_app. cbn [length].
  rewrite Nat2Z.inj_add. reflexivity.
Qed.

Lemma items_tail_of self p :
  AsyncioQueue.items (tail_of self p) = tail (AsyncioQueue.items (queues self p)).
Proof. done. Qed.

Lemma total_size_set_queue_tail self p x rest :
  AsyncioQueue.items (queues self p) = x :: rest →
  total_size (set_queue p (tail_of self p) self) = total_size self - 1.
Proof.
  intros Hp. unfold total_size.
  rewrite !(size_set_queue_tail _ _ _ _ _ Hp).
  destruct p; repeat case_decide; (done || lia).
Qed.

Lemma total_size_zero self :
  total_size self = 0 ↔ ∀ p, AsyncioQueue.items (queues self p) = [].
Proof.
  unfold total_size. split.
  - intros Hz p. apply size_zero.
    pose proof (size_nonneg self Priority.CRITICAL).
    pose proof (size_nonneg self Priority.HIGH).
    pose proof (size_nonneg self Priority.NORMAL).
    pose proof (size_nonneg self Priority.LOW).
    destruct p; lia.
  - intros Hall.
    rewrite !(proj2 (size_zero _ _)) by apply Hall. done.
Qed.

(** X6. The queue neither loses nor invents items: a [put] that returns
    returns [True] and adds one item, a [get] that returns an item removes
    one, and [get] returns [None], leaving the queue as it is, exactly
    when nothing is queued at any level. *)
Theorem X6_put_and_get_account_for_every_item self :
  (∀ (context : RequestContext.t) (handler : Handler Any) b self',
     put context handler self = Returned (b, self') →
     b = true ∧ total_size self' = total_size self + 1)
  ∧ (∀ x self', get self = (Some x, self') →
                total_size self' = total_size self - 1)
  ∧ (∀ self', get self = (None, self') → self' = self ∧ total_size self = 0)
  ∧ (0 < total_size self → ∃ x, (get self).1 = Some x).
Proof.
  split_and!.
  - intros context handler b self' Hput. unfold total_size.
    destruct (size_put _ _ _ _ _ Priority.CRITICAL Hput) as (-> & _ & _ & ->).
    destruct (size_put _ _ _ _ _ Priority.HIGH Hput) as (_ & _ & _ & ->).
    destruct (size_put _ _ _ _ _ Priority.NORMAL Hput) as (_ & _ & _ & ->).
    destruct (size_put _ _ _ _ _ Priority.LOW Hput) as (_ & _ & _ & ->).
    split; [done|].
    destruct (RequestContext.priority context); repeat case_decide; (done || lia).
  - intros x self' Hget.
    destruct (get_cases self) as [[Hnone _]|(p & x0 & rest & Hp & _ & Hsome)];
      [congruence|].
    rewrite Hsome in Hget. injection Hget as _ <-.
    by eapply total_size_set_queue_tail.
  - intros self' Hget.
    destruct (get_cases self) as [[Hnone Hall]|(p & x0 & rest & Hp & _ & Hsome)];
      [|congruence].
    rewrite Hnone in Hget. injection Hget as <-.
    split; [done|]. by apply total_size_zero.
  - intros Hpos.
    destruct (get_cases self) as [[_ Hall]|(p & x0 & rest & _ & _ & ->)]; [|eauto].
    apply total_size_zero in Hall. lia.
Qed.

(** X7. On a queue with nothing in it, [put] followed by [get] hands back
    the very pair that was put and leaves the queue empty again. *)
Theorem X7_put_then_get_on_empty_queue self
    (context : RequestContext.t) (handler : Handler Any) self1 :
  total_size self = 0 →
  put context handler self = Returned (true, self1) →
  (get self1).1 = Some (context, handler)
  ∧ total_size (get self1).2 = 0
  ∧ (get (get self1).2).1 = None.
Proof.
  intros Hempty Hput.
  pose proof (proj1 (total_size_zero self) Hempty) as Hall.
  unfold put in Hput.
  destruct (AsyncioQueue.full _) eqn:Hfull; [done|]. injection Hput as <-.
  set (p := RequestContext.priority context) in *.
  set (self1 := set_queue p _ self).
  assert (Hp : AsyncioQueue.items (queues self1 p) = [(context, handler)]).
  { unfold self1. rewrite queues_set_queue_eq. unfold AsyncioQueue.push.
    simpl AsyncioQueue.items. by rewrite Hall. }
  assert (Hother : ∀ p', p' ≠ p → AsyncioQueue.items (queues self1 p') = []).
  { intros p' Hne. unfold self1. rewrite queues_set_queue_ne by done. apply Hall. }
  rewrite (get_highest self1 p _ [] Hp)
    by (intros p' Hlt; apply Hother; intros ->; lia).
  cbn [fst snd].
  assert (Hafter : ∀ p', AsyncioQueue.items
                           (queues (set_queue p (tail_of self1 p) self1) p') = []).
  { intros p'. destruct (decide (p' = p)) as [->|Hne].
    - by rewrite queues_set_queue_eq, items_tail_of, Hp.
    - rewrite queues_set_queue_ne by done. by apply Hother. }
  split_and!; [done| |].
  - by apply total_size_zero.
  - by rewrite get_all_empty.
Qed.

End RequestQueueFurther.

Lemma X4_witness :
  AsyncioQueue.maxsize (RequestQueue.queues Sample.one_queued Priority.NORMAL) = 16 / 4
  ∧ 0 ≤ RequestQueue.size Sample.one_queued Priority.NORMAL
  ∧ (0 < 16 / 4 → RequestQueue.size Sample.one_queued Priority.NORMAL ≤ 16 / 4).
Proof.
  apply (X4_levels_stay_within_capacity (Any := string) 16 Sample.one_queued).
  apply (RequestQueue.reachable_put 16 (RequestQueue.init 16)
           (Sample.context RequestType.CHAT Priority.NORMAL) Sample.echo true).
  - apply RequestQueue.reachable_init.
  - reflexivity.
Defined.

Lemma X5_witness :
  ∃ self',
    RequestQueue.put (Sample.context RequestType.CHAT Priority.NORMAL) Sample.echo
      (RequestQueue.init 3) = Returned (true, self')
    ∧ RequestQueue.size self' Priority.NORMAL
      = RequestQueue.size (RequestQueue.init (Any := string) 3) Priority.NORMAL + 1.
Proof.
  apply (X5_small_max_size_means_unbounded 3 (RequestQueue.init 3)
           (Sample.context RequestType.CHAT Priority.NORMAL) Sample.echo).
  - lia.
  - apply RequestQueue.reachable_init.
Defined.

Lemma X6_witness :
  ∃ x, (RequestQueue.get Sample.one_queued).1 = Some x.
Proof.
  destruct (X6_put_and_get_account_for_every_item Sample.one_queued)
    as (_ & _ & _ & Hsome).
  apply Hsome. vm_compute. reflexivity.
Defined.

Lemma X7_witness :
  (RequestQueue.get Sample.one_queued).1
  = Some (Sample.context RequestType.CHAT Priority.NORMAL, Sample.echo).
Proof.
  destruct (X7_put_then_get_on_empty_queue (RequestQueue.init 16)
              (Sample.context RequestType.CHAT Priority.NORMAL) Sample.echo
              Sample.one_queued) as (Hsame & _).
  - reflexivity.
  - reflexivity.
  - exact Hsame.
Defined.

(** ** Execution with retries *)

Section RetryFurther.
Context {Any : Type}.
Import RequestRouter.

Implicit Types (handler : Handler Any) (context : RequestContext.t)
  (w : World.t) (e : Error) (last : option Error).

Lemma slept_app (l1 l2 : list Event) : slept (l1 ++ l2) = slept l1 + slept l2.
Proof.
  induction l1 as [|[i|seconds] l1 IH]; cbn [app slept]; lia.
Qed.

(** The loop, entered in step with its counter, invokes at most the
    iterations it has left, and the last thing it logs is an invocation:
    no sleep follows the final attempt. *)
Lemma retry_loop_log handler context timeout attempts remaining :
  ∀ attempt last w,
  attempt + Z.of_nat remaining = attempts →
  let w' := (retry_loop handler context timeout attempts remaining attempt last w).2 in
  (World.awaited w' ≤ World.awaited w + remaining)%nat
  ∧ ∃ post, World.events w' = World.events w ++ post
            ∧ (post = [] ∨ ∃ pre i, post = pre ++ [Invoke i])
            ∧ (remaining = 0%nat → post = []).
Proof.
  induction remaining as [|remaining IH]; intros attempt last w Hstep.
  - cbn. split; [lia|]. exists []. rewrite app_nil_r. by split_and!; [|left|].
  - destruct (handler context timeout (World.awaited w)) as [v|e] eqn:Hout.
    + destruct (retry_loop_returned _ _ _ attempts remaining attempt last _ _ Hout)
        as (w1 & Hrun & Hev & _).
      rewrite Hrun. cbn [snd].
      assert (World.awaited w1 = S (World.awaited w)) as ->.
      { cbn [retry_loop] in Hrun. unfold World.await in Hrun.
        rewrite Hout in Hrun. by injection Hrun as <-. }
      split; [lia|]. exists [Invoke (World.awaited w)].
      split_and!; [done| |done]. right. by exists [], (World.awaited w).
    + destruct (retry_loop_failed _ _ _ attempts remaining attempt last _ _ Hout)
        as (w1 & -> & Haw & Hev & _).
      destruct (IH (attempt + 1) (Some e) w1) as (Hcount & post & Hpost & Hend & Hnil);
        [lia|].
      cbv zeta in *. split; [lia|].
      rewrite Hpost, Hev, <- app_assoc. cbn [app].
      eexists. split; [reflexivity|]. split; [|done]. right.
      destruct Hend as [->|(pre & i & ->)].
      * destruct remaining as [|remaining].
        -- replace (attempt <? attempts - 1) with false
             by (symmetry; apply Z.ltb_ge; lia).
           by exists [], (World.awaited w).
        -- destruct (retry_loop_starts_with_invoke handler context timeout
                       attempts remaining (attempt + 1) (Some e) w1) as (post' & Hpost').
           rewrite Hpost, app_nil_r in Hpost'.
           apply (f_equal length) in Hpost'. rewrite length_app in Hpost'.
           cbn [length] in Hpost'. lia.
      * exists (Invoke (World.awaited w)
                  :: (if attempt <? attempts - 1
                      then [Sleep (if is_timeout e then 2 ^ attempt else 1)]
                      else []) ++ pre), i.
        cbn [app]. by rewrite <- app_assoc.
Qed.

(** The seconds slept by a loop all of whose iterations time out, and by
    one all of whose iterations fail otherwise. *)
Lemma retry_loop_slept handler context timeout attempts (n : nat) :
  ∀ attempt last w,
  0 ≤ attempt →
  attempt + Z.of_nat (S n) = attempts →
  (∀ j, (j ≤ n)%nat →
        ∃ e, handler context timeout (World.awaited w + j)%nat = Raise e) →
  let w' := (retry_loop handler context timeout attempts (S n) attempt last w).2 in
  World.awaited w' = (World.awaited w + S n)%nat
  ∧ ((∀ j, (j ≤ n)%nat →
           handler context timeout (World.awaited w + j)%nat = Raise TimeoutError) →
     slept (World.events w') = slept (World.events w) + 2 ^ (attempts - 1) - 2 ^ attempt)
  ∧ ((∀ j e, (j ≤ n)%nat →
             handler context timeout (World.awaited w + j)%nat = Raise e →
             is_timeout e = false) →
     slept (World.events w') = slept (World.events w) + Z.of_nat n).
Proof.
  induction n as [|n IH]; intros attempt last w Hattempt Hstep Hfail.
  - destruct (Hfail 0%nat) as [e He]; [lia|]. rewrite Nat.add_0_r in He.
    destruct (retry_loop_failed _ _ _ attempts 0%nat attempt last _ _ He)
      as (w1 & -> & Haw & Hev & _).
    cbn [retry_loop snd]. rewrite Hev, Haw.
    replace (attempt <? attempts - 1) with false
      by (symmetry; apply Z.ltb_ge; lia).
    rewrite slept_app. cbn [slept].
    replace (attempts - 1) with attempt by lia.
    split_and!; [lia|intros _; lia|intros _; lia].
  - destruct (Hfail 0%nat) as [e He]; [lia|]. rewrite Nat.add_0_r in He.
    destruct (retry_loop_failed _ _ _ attempts (S n) attempt last _ _ He)
      as (w1 & -> & Haw & Hev & _).
    destruct (IH (attempt + 1) (Some e) w1) as (Hcount & Htimeouts & Herrors).
    + lia.
    + lia.
    + intros j Hj. rewrite Haw.
      destruct (Hfail (S j)) as [e' He']; [lia|].
      exists e'. by rewrite <- He', Nat.add_succ_r.
    + cbv zeta in *. rewrite Hcount, Haw.
      replace (attempt <? attempts - 1) with true in Hev
        by (symmetry; apply Z.ltb_lt; lia).
      split_and!; [lia| |].
      * intros Hall. rewrite Htimeouts.
        2: { intros j Hj. rewrite Haw, <- (Hall (S j)) by lia.
             by rewrite Nat.add_succ_r. }
        rewrite Hev, slept_app. cbn [slept].
        assert (e = TimeoutError) as ->.
        { specialize (Hall 0%nat ltac:(lia)). rewrite Nat.add_0_r in Hall. congruence. }
        cbn [is_timeout].
        replace (2 ^ (attempt + 1)) with (2 * 2 ^ attempt)
          by (rewrite Z.pow_add_r by lia; lia).
        lia.
      * intros Hall. rewrite Herrors.
        2: { intros j e' Hj He'. apply (Hall (S j) e'); [lia|].
             by rewrite <- He', Haw, Nat.add_succ_r. }
        rewrite Hev, slept_app. cbn [slept].
        rewrite (Hall 0%nat e) by (lia || by rewrite Nat.add_0_r).
        lia.
Qed.

(** X8. [_execute_with_retries] invokes the handler at most
    [retry_attempts] times, and whatever it logs ends with an invocation:
    it never sleeps after the final attempt.  With [retry_attempts] at or
    below 0 it invokes nothing, sleeps nothing and raises the exception
    "All retry attempts failed". *)
Theorem X8_attempts_are_bounded handler context (timeout attempts : Z) w :
  let w' := (_execute_with_retries handler context timeout attempts w).2 in
  (World.awaited w' ≤ World.awaited w + Z.to_nat attempts)%nat
  ∧ (∃ post, World.events w' = World.events w ++ post
             ∧ (post = [] ∨ ∃ pre i, post = pre ++ [Invoke i]))
  ∧ (attempts ≤ 0 →
     _execute_with_retries handler context timeout attempts w
     = (Raise AllRetryAttemptsFailed, w)).
Proof.
  cbv zeta. unfold _execute_with_retries.
  destruct (Z.le_gt_cases attempts 0) as [Hnone|Hsome].
  - replace (Z.to_nat attempts) with 0%nat by lia. cbn.
    split_and!; [lia| |done]. exists []. rewrite app_nil_r. by split; [|left].
  - destruct (retry_loop_log handler context timeout attempts (Z.to_nat attempts)
                0 None w) as (Hcount & post & Hpost & Hend & _); [lia|].
    split_and!; [done| |lia]. by exists post.
Qed.

(** X9. When all [retry_attempts >= 1] invocations fail, the handler has
    been invoked exactly [retry_attempts] times; the router has slept
    [2 ^ (retry_attempts - 1) - 1] seconds in all if every failure was a
    timeout, and [retry_attempts - 1] seconds if none was. *)
Theorem X9_total_backoff handler context (timeout attempts : Z) w :
  1 ≤ attempts →
  (∀ j, (j < Z.to_nat attempts)%nat →
        ∃ e, handler context timeout (World.awaited w + j)%nat = Raise e) →
  let w' := (_execute_with_retries handler context timeout attempts w).2 in
  World.awaited w' = (World.awaited w + Z.to_nat attempts)%nat
  ∧ ((∀ j, (j < Z.to_nat attempts)%nat →
           handler context timeout (World.awaited w + j)%nat = Raise TimeoutError) →
     slept (World.events w') = slept (World.events w) + (2 ^ (attempts - 1) - 1))
  ∧ ((∀ j e, (j < Z.to_nat attempts)%nat →
             handler context timeout (World.awaited w + j)%nat = Raise e →
             is_timeout e = false) →
     slept (World.events w') = slept (World.events w) + (attempts - 1)).
Proof.
  intros Hatt Hfail. cbv zeta. unfold _execute_with_retries.
  destruct (Z.to_nat attempts) as [|n] eqn:Hn; [lia|].
  destruct (retry_loop_slept handler context timeout attempts n 0 None w)
    as (Hcount & Htimeouts & Herrors); [lia|lia| |].
  { intros j Hj. apply Hfail. lia. }
  cbv zeta in *. split_and!; [done| |].
  - intros Hall. rewrite Htimeouts by (intros j Hj; apply Hall; lia).
    change (2 ^ 0) with 1. lia.
  - intros Hall. rewrite Herrors by (intros j e Hj; apply Hall; lia). lia.
Qed.

End RetryFurther.

Lemma X9_witness :
  slept (World.events
           (RequestRouter._execute_with_retries Sample.sleepy
              (Sample.context RequestType.CHAT Priority.NORMAL) 1 3 Sample.world).2)
  = slept (World.events Sample.world) + (2 ^ (3 - 1) - 1).
Proof.
  destruct (X9_total_backoff Sample.sleepy
              (Sample.context RequestType.CHAT Priority.NORMAL) 1 3 Sample.world)
    as (_ & Htimeouts & _).
  - lia.
  - intros j Hj. exists TimeoutError. reflexivity.
  - apply Htimeouts. intros j Hj. reflexivity.
Defined.

(** ** The dispatcher *)

Section RouterFurther.
Context {Any : Type}.
Import RequestRouter.

Implicit Types (self : RequestRouter.t Any) (handler : Handler Any)
  (context : RequestContext.t) (w : World.t) (rule : RouteRule.t)
  (handler_override : option (Handler Any)).

(** The rate check of a rule with a limit, in terms of the limiter. *)
Lemma check_rate_limit_limited rule context self w (limit : Z) :
  RouteRule.rate_limit rule = Some limit →
  limit ≠ 0 →
  let now := World.datetime_now w (World.now_reads w) in
  let now' := World.datetime_now w (S (World.now_reads w)) in
  let verdict :=
    RateLimiter.is_allowed now (rate_key context) limit 1 (rate_limiter self) in
  ∃ w',
    check_rate_limit rule context self w
    = (if verdict.1 then None
       else Some (RateLimitExceeded
                    (RateLimiter.get_remaining now' (rate_key context) limit 1
                       verdict.2)),
       set_rate_limiter verdict.2 self, w')
    ∧ World.events w' = World.events w
    ∧ World.awaited w' = World.awaited w
    ∧ World.time_time w' = World.time_time w
    ∧ World.time_reads w' = World.time_reads w.
Proof.
  intros Hlimit Hnz. cbv zeta. unfold check_rate_limit. rewrite Hlimit.
  replace (limit =? 0) with false by (symmetry; by apply Z.eqb_neq).
  cbn [World.read_now].
  destruct (RateLimiter.is_allowed _ _ _ _ _) as [[] rl]; cbn [fst snd];
    eexists; (split; [reflexivity|done]).
Qed.

(** What [route_request] does once the rate check has rejected. *)
Lemma route_request_rejected self w context handler_override rule context' e self2 w2 :
  _find_matching_route self context = Some rule →
  apply_priority_boost rule context = Ok context' →
  check_rate_limit rule context'
    (set_stats (RequestStats.seen context (stats self)) self) (World.read_time w).2
  = (Some e, self2, w2) →
  let run := route_request self w context handler_override in
  result run = Raise e
  ∧ World.events (world_after run) = World.events w2
  ∧ World.awaited (world_after run) = World.awaited w2
  ∧ rate_limiter (router_after run) = rate_limiter self2.
Proof.
  intros Hfind Hboost Hcheck. cbv zeta. unfold route_request.
  cbn [World.read_time]. unfold route_request_try.
  change (_find_matching_route (set_stats _ self) context)
    with (_find_matching_route self context).
  rewrite Hfind, Hboost. cbn [World.read_time snd] in Hcheck. rewrite Hcheck.
  cbn. unfold _update_response_time_stats. cbn. by destruct (0 <? _).
Qed.

(** X10. When the limiter rejects a request under the rate limit of the
    matched rule, [route_request] raises the rate-limit exception without
    invoking any handler; the count it carries is [get_remaining] at the
    second clock reading, never negative, and 0 when the two readings
    coincide; the limiter keeps the purged entry and nothing else. *)
Theorem X10_rate_limit_rejection
    self w context handler_override rule context' (limit : Z) :
  _find_matching_route self context = Some rule →
  apply_priority_boost rule context = Ok context' →
  RouteRule.rate_limit rule = Some limit →
  0 < limit →
  let now := World.datetime_now w (World.now_reads w) in
  let now' := World.datetime_now w (S (World.now_reads w)) in
  let verdict :=
    RateLimiter.is_allowed now (rate_key context') limit 1 (rate_limiter self) in
  let remaining :=
    RateLimiter.get_remaining now' (rate_key context') limit 1 verdict.2 in
  verdict.1 = false →
  let run := route_request self w context handler_override in
  result run = Raise (RateLimitExceeded remaining)
  ∧ 0 ≤ remaining
  ∧ (now' = now → remaining = 0)
  ∧ World.events (world_after run) = World.events w
  ∧ World.awaited (world_after run) = World.awaited w
  ∧ rate_limiter (router_after run) = verdict.2.
Proof.
  intros Hfind Hboost Hlimit Hpos. cbv zeta. intros Hverdict.
  destruct (check_rate_limit_limited rule context'
              (set_stats (RequestStats.seen context (stats self)) self)
              (World.read_time w).2 limit Hlimit ltac:(lia))
    as (w2 & Hcheck & Hev & Haw & _).
  cbn [World.read_time snd World.datetime_now World.now_reads rate_limiter
       set_stats] in Hcheck.
  rewrite Hverdict in Hcheck.
  destruct (route_request_rejected _ _ _ handler_override _ _ _ _ _
              Hfind Hboost Hcheck) as (Hres & Hev' & Haw' & Hrl).
  split_and!; [done| | |by rewrite Hev'|by rewrite Haw'|done].
  - unfold RateLimiter.get_remaining.
    destruct (RateLimiter.requests _ !! _); lia.
  - intros ->.
    rewrite is_allowed_in_window in Hverdict |- *.
    destruct (Z.leb_spec limit
                (Z.of_nat (length (RateLimiter.in_window
                   (World.datetime_now w (World.now_reads w))
                   (rate_key context') 1 (rate_limiter self))))) as [Hfull|];
      [|done].
    cbn [snd]. unfold RateLimiter.get_remaining. cbn [RateLimiter.requests].
    rewrite lookup_insert_eq. unfold RateLimiter.in_window at 1.
    rewrite recent_recent by lia.
    fold (RateLimiter.in_window (World.datetime_now w (World.now_reads w))
            (rate_key context') 1 (rate_limiter self)). lia.
Qed.

(** X11. A rule whose rate limit is negative rejects every request it
    matches: whatever the limiter holds, [route_request] raises the
    rate-limit exception with 0 remaining, and no handler is invoked. *)
Theorem X11_negative_limit_rejects_everything
    self w context handler_override rule context' (limit : Z) :
  _find_matching_route self context = Some rule →
  apply_priority_boost rule context = Ok context' →
  RouteRule.rate_limit rule = Some limit →
  limit < 0 →
  let run := route_request self w context handler_override in
  result run = Raise (RateLimitExceeded 0)
  ∧ World.events (world_after run) = World.events w
  ∧ World.awaited (world_after run) = World.awaited w.
Proof.
  intros Hfind Hboost Hlimit Hneg. cbv zeta.
  destruct (check_rate_limit_limited rule context'
              (set_stats (RequestStats.seen context (stats self)) self)
              (World.read_time w).2 limit Hlimit ltac:(lia))
    as (w2 & Hcheck & Hev & Haw & _).
  cbn [World.read_time snd World.datetime_now World.now_reads rate_limiter
       set_stats] in Hcheck.
  rewrite is_allowed_in_window in Hcheck.
  replace (limit <=? _) with true in Hcheck by (symmetry; apply Z.leb_le; lia).
  cbn [fst snd] in Hcheck.
  replace (RateLimiter.get_remaining _ _ _ _ _) with 0 in Hcheck.
  2: { unfold RateLimiter.get_remaining. cbn [RateLimiter.requests].
       rewrite lookup_insert_eq. lia. }
  destruct (route_request_rejected _ _ _ handler_override _ _ _ _ _
              Hfind Hboost Hcheck) as (Hres & Hev' & Haw' & _).
  split_and!; [done|by rewrite Hev'|by rewrite Haw'].
Qed.

(** X12. A request whose rule names a handler that is not registered,
    with no override, fails with the handler-not-found exception and no
    invocation, but only after the rate check: under a positive limit
    that admits it, the request has used up one admission of its key. *)
Theorem X12_missing_handler_still_consumes_quota
    self w context rule context' (limit : Z) :
  _find_matching_route self context = Some rule →
  apply_priority_boost rule context = Ok context' →
  RouteRule.rate_limit rule = Some limit →
  0 < limit →
  let now := World.datetime_now w (World.now_reads w) in
  let key := rate_key context' in
  (RateLimiter.is_allowed now key limit 1 (rate_limiter self)).1 = true →
  handlers self !! RouteRule.handler rule = None →
  let run := route_request self w context None in
  result run = Raise (HandlerNotFound (RouteRule.handler rule))
  ∧ World.events (world_after run) = World.events w
  ∧ World.awaited (world_after run) = World.awaited w
  ∧ RateLimiter.requests (rate_limiter (router_after run)) !! key
    = Some (RateLimiter.in_window now key 1 (rate_limiter self) ++ [now])
  ∧ RateLimiter.get_remaining now key limit 1 (rate_limiter (router_after run))
    = RateLimiter.get_remaining now key limit 1 (rate_limiter self) - 1.
Proof.
  intros Hfind Hboost Hlimit Hpos. cbv zeta. intros Hverdict Hmissing.
  destruct (check_rate_limit_limited rule context'
              (set_stats (RequestStats.seen context (stats self)) self)
              (World.read_time w).2 limit Hlimit ltac:(lia))
    as (w2 & Hcheck & Hev & Haw & _).
  cbn [World.read_time snd World.datetime_now World.now_reads rate_limiter
       set_stats] in Hcheck.
  rewrite Hverdict in Hcheck.
  assert (Hrun : result (route_request self w context None)
                 = Raise (HandlerNotFound (RouteRule.handler rule))
               ∧ World.events (world_after (route_request self w context None))
                 = World.events w2
               ∧ World.awaited (world_after (route_request self w context None))
                 = World.awaited w2
               ∧ rate_limiter (router_after (route_request self w context None))
                 = (RateLimiter.is_allowed
                      (World.datetime_now w (World.now_reads w))
                      (rate_key context') limit 1 (rate_limiter self)).2).
  { unfold route_request. cbn [World.read_time]. unfold route_request_try.
    change (_find_matching_route (set_stats _ self) context)
      with (_find_matching_route self context).
    rewrite Hfind, Hboost, Hcheck. unfold resolve_handler.
    cbn [handlers set_rate_limiter set_stats]. rewrite Hmissing.
    cbn. unfold _update_response_time_stats. cbn. by destruct (0 <? _). }
  destruct Hrun as (Hres & Hev' & Haw' & Hrl).
  split_and!; [done|by rewrite Hev'|by rewrite Haw'| |].
  - rewrite Hrl, is_allowed_in_window. rewrite is_allowed_in_window in Hverdict.
    destruct (limit <=? _); [done|]. cbn [snd RateLimiter.requests].
    apply lookup_insert_eq.
  - rewrite Hrl.
    apply admission_lowers_remaining; [lia|done].
Qed.

(** The per-type and per-priority counters across the [try] block. *)
Lemma route_request_try_breakdown self w context handler_override :
  let st' := stats (router_after (route_request_try self w context handler_override)) in
  RequestStats.requests_by_type st'
  = RequestStats.requests_by_type (RequestStats.seen context (stats self))
  ∧ RequestStats.requests_by_priority st'
    = RequestStats.requests_by_priority (RequestStats.seen context (stats self)).
Proof.
  unfold route_request_try.
  destruct (_find_matching_route _ context) as [rule|]; [|done].
  destruct (apply_priority_boost rule context) as [context'|e]; [|done].
  pose proof (check_rate_limit_frame rule context'
                (set_stats (RequestStats.seen context (stats self)) self) w) as Hrl.
  destruct (check_rate_limit rule context' _ w) as [[err self2] w2].
  cbn [fst snd] in Hrl. destruct Hrl as (_ & _ & Hst & _).
  destruct err as [e|]; [cbn; by rewrite Hst|].
  destruct (resolve_handler rule handler_override self2) as [handler|];
    [|cbn; by rewrite Hst].
  destruct (_execute_with_retries _ _ _ _ _) as [[v|e] w3]; cbn; by rewrite Hst.
Qed.

(** The two breakdowns after a call of [route_request], on every path. *)
Lemma route_request_breakdown self w context handler_override :
  let st' := stats (router_after (route_request self w context handler_override)) in
  RequestStats.requests_by_type st'
  = RequestStats.requests_by_type (RequestStats.seen context (stats self))
  ∧ RequestStats.requests_by_priority st'
    = RequestStats.requests_by_priority (RequestStats.seen context (stats self)).
Proof.
  cbv zeta. unfold route_request. cbn [World.read_time].
  pose proof (route_request_try_breakdown self
                {| World.time_time := World.time_time w;
                   World.time_reads := S (World.time_reads w);
                   World.datetime_now := World.datetime_now w;
                   World.now_reads := World.now_reads w;
                   World.awaited := World.awaited w;
                   World.events := World.events w |}
                context handler_override) as Htry.
  cbv zeta in Htry.
  destruct (route_request_try self _ context handler_override)
    as [res context' self' w'].
  cbn [result router_after world_after] in *.
  unfold _update_response_time_stats.
  destruct res; destruct (0 <? _); cbn; done.
Qed.

(** X13. Every call of [route_request], whatever its outcome, adds one to
    the counter of the request's type and one to the counter of the
    priority the request arrived with, and touches no other counter.  A
    request that a rule boosts is thus counted under its priority before
    the boost, not under the one it runs with. *)
Theorem X13_requests_counted_by_type_and_arrival_priority
    self w context handler_override :
  let run := route_request self w context handler_override in
  let st := stats self in
  let st' := stats (router_after run) in
  let type_key := RequestType.value (RequestContext.request_type context) in
  let prio_key := Priority.name (RequestContext.priority context) in
  RequestStats.requests_by_type st'
  = <[type_key := default 0 (RequestStats.requests_by_type st !! type_key) + 1]>
      (RequestStats.requests_by_type st)
  ∧ RequestStats.requests_by_priority st'
    = <[prio_key := default 0 (RequestStats.requests_by_priority st !! prio_key) + 1]>
        (RequestStats.requests_by_priority st)
  ∧ (∀ rule,
       _find_matching_route self context = Some rule →
       0 < RouteRule.priority_boost rule →
       RequestContext.priority context ≠ Priority.CRITICAL →
       Priority.name (RequestContext.priority (context_after run)) ≠ prio_key).
Proof.
  cbv zeta.
  destruct (route_request_breakdown self w context handler_override)
    as [Htype Hprio].
  cbv zeta in Htype, Hprio. rewrite Htype, Hprio. split_and!; [done..|].
  intros rule Hfind Hboost Hnot.
  destruct (apply_priority_boost_clamped rule context Hboost) as (p & Hp & Hval).
  rewrite (route_request_context _ _ _ _ _ _ Hfind Hp).
  cbn [RequestContext.priority RequestContext.set_priority].
  destruct (RequestContext.priority context), p; cbn in Hval |- *;
    (done || lia).
Qed.

(** X14. [add_route] puts the rule last: a request that some rule already
    matched is still routed to that rule, and the new rule is selected
    only for requests that no earlier rule matches and that it matches
    itself. *)
Theorem X14_add_route_never_shadows self rule context :
  _find_matching_route (add_route rule self) context
  = match _find_matching_route self context with
    | Some earlier => Some earlier
    | None =>
        match RouteRule.condition rule context with
        | Some true => Some rule
        | _ => None
        end
    end.
Proof.
  unfold _find_matching_route, add_route. cbn [routes set_routes].
  induction (routes self) as [|r rules IH]; cbn [app find_first].
  - by destruct (RouteRule.condition rule context) as [[]|].
  - by destruct (RouteRule.condition r context) as [[]|].
Qed.

Lemma breakdown_total_bump (m : gmap string Z) (k : string) :
  RequestStats.breakdown_total (<[k := default 0 (m !! k) + 1]> m)
  = RequestStats.breakdown_total m + 1.
Proof.
  unfold RequestStats.breakdown_total.
  destruct (m !! k) as [v|] eqn:Hk; cbn [from_option id].
  - rewrite <- insert_delete_eq.
    rewrite map_fold_insert_L by (intros; lia || apply lookup_delete_eq).
    rewrite (map_fold_delete_L _ _ k v m) by (intros; lia || done). lia.
  - rewrite map_fold_insert_L by (intros; lia || done). lia.
Qed.

(** X15. In every router that occurs, the counters agree: the requests
    counted by type add up to [total_requests], so do the requests counted
    by priority, and so do the successes and failures together, none of
    them negative. *)
Theorem X15_counters_add_up self :
  reachable self →
  let st := stats self in
  RequestStats.breakdown_total (RequestStats.requests_by_type st)
  = RequestStats.total_requests st
  ∧ RequestStats.breakdown_total (RequestStats.requests_by_priority st)
    = RequestStats.total_requests st
  ∧ RequestStats.successful_requests st + RequestStats.failed_requests st
    = RequestStats.total_requests st
  ∧ 0 ≤ RequestStats.successful_requests st
  ∧ 0 ≤ RequestStats.failed_requests st.
Proof.
  intros Hreach. cbv zeta.
  destruct (reachable_counters self Hreach) as (Hs & Hf & Hsum).
  enough (RequestStats.breakdown_total (RequestStats.requests_by_type (stats self))
          = RequestStats.total_requests (stats self)
          ∧ RequestStats.breakdown_total (RequestStats.requests_by_priority (stats self))
            = RequestStats.total_requests (stats self)) by (split_and!; tauto).
  clear Hs Hf Hsum.
  induction Hreach as [self now Hfresh| | |self w context handler_override _ IH|];
    try done.
  - by rewrite Hfresh.
  - destruct IH as [IHt IHp].
    destruct (route_request_breakdown self w context handler_override)
      as [Htype Hprio].
    destruct (route_request_counters self w context handler_override)
      as (_ & Htot).
    cbv zeta in *. rewrite Htype, Hprio, Htot.
    cbn [RequestStats.seen RequestStats.requests_by_type
         RequestStats.requests_by_priority].
    rewrite !breakdown_total_bump. lia.
Qed.

(** *** Workers *)

(** X16. The bookkeeping of the worker pool.  [start_workers] on a router
    that is processing changes nothing, so starting twice is starting
    once; [start_workers(0)] starts [max_concurrent_workers] workers, like
    [start_workers()]; a negative count marks the router as processing
    without creating any worker; [stop_workers] leaves no worker and
    clears the flag, after which workers can be started again.  None of
    this touches the rules, handlers, limiter, queue or statistics. *)
Theorem X16_worker_bookkeeping self (n m : option Z) :
  (is_processing self = true → start_workers n self = self)
  ∧ start_workers m (start_workers n self) = start_workers n self
  ∧ start_workers (Some 0) self = start_workers None self
  ∧ (is_processing self = false →
     worker_tasks (start_workers None self)
     = (worker_tasks self + Z.to_nat (max_concurrent_workers self))%nat)
  ∧ (∀ k, k < 0 → is_processing self = false →
          is_processing (start_workers (Some k) self) = true
          ∧ worker_tasks (start_workers (Some k) self) = worker_tasks self)
  ∧ (active_workers (get_stats (stop_workers self)) = 0%nat
     ∧ snap_is_processing (get_stats (stop_workers self)) = false)
  ∧ (∀ k, 0 < k →
          worker_tasks (start_workers (Some k) (stop_workers self)) = Z.to_nat k
          ∧ is_processing (start_workers (Some k) (stop_workers self)) = true)
  ∧ (∀ self', self' = start_workers n self ∨ self' = stop_workers self →
              routes self' = routes self ∧ handlers self' = handlers self
              ∧ rate_limiter self' = rate_limiter self
              ∧ request_queue self' = request_queue self
              ∧ stats self' = stats self).
Proof.
  split_and!.
  - intros Hp. unfold start_workers. by rewrite Hp.
  - unfold start_workers. destruct (is_processing self) eqn:Hp.
    + by rewrite Hp.
    + done.
  - unfold start_workers. by destruct (is_processing self).
  - intros Hp. unfold start_workers. by rewrite Hp.
  - intros k Hk Hp. unfold start_workers. rewrite Hp.
    replace (k =? 0) with false by (symmetry; apply Z.eqb_neq; lia).
    cbn. split; [done|]. lia.
  - done.
  - done.
  - intros k Hk. unfold start_workers, stop_workers. cbn.
    replace (k =? 0) with false by (symmetry; apply Z.eqb_neq; lia).
    done.
  - intros self' [-> | ->]; [|done].
    unfold start_workers. by destruct (is_processing self).
Qed.

(** *** Rules from configuration *)

Lemma create_default_rules_routes self :
  routes (_create_default_rules self) = routes self ++ default_rules.
Proof.
  unfold _create_default_rules, default_rules.
  cbn [foldl add_route set_routes routes]. by rewrite <- !app_assoc.
Qed.

Lemma load_entries_good (good : list RuleData.t) : ∀ self,
  load_entries (Some <$> good) self
  = (foldl (λ self rule_data, _create_rule_from_config rule_data self) self good,
     true).
Proof.
  induction good as [|rule_data good IH]; intros self; [done|].
  cbn [fmap list_fmap load_entries foldl]. apply IH.
Qed.

Lemma load_entries_bad (good : list RuleData.t) rest : ∀ self,
  load_entries ((Some <$> good) ++ None :: rest) self
  = (foldl (λ self rule_data, _create_rule_from_config rule_data self) self good,
     false).
Proof.
  induction good as [|rule_data good IH]; intros self; [done|].
  cbn [fmap list_fmap app load_entries foldl]. apply IH.
Qed.

Lemma create_saved_rules (rules : list RouteRule.t) : ∀ self,
  routes (foldl (λ self rule_data, _create_rule_from_config rule_data self)
                self (saved_rule <$> rules))
  = routes self ++ (reloaded <$> rules).
Proof.
  induction rules as [|rule rules IH]; intros self.
  - cbn. by rewrite app_nil_r.
  - cbn [fmap list_fmap foldl]. rewrite IH.
    cbn [_create_rule_from_config saved_rule routes set_routes RuleData.name
         RuleData.handler RuleData.priority_boost RuleData.rate_limit
         RuleData.timeout_seconds RuleData.retry_attempts RuleData.metadata
         from_option id].
    by rewrite <- app_assoc.
Qed.

Lemma reloaded_id rule :
  RouteRule.condition rule = condition_of_name (RouteRule.name rule) →
  reloaded rule = rule.
Proof. destruct rule. cbn. by intros ->. Qed.

Lemma reloaded_named (rules : list RouteRule.t) :
  Forall (λ r, RouteRule.condition r = condition_of_name (RouteRule.name r)) rules →
  reloaded <$> rules = rules.
Proof.
  induction 1 as [|r rs Hr _ IH]; [done|].
  cbn [fmap list_fmap]. rewrite reloaded_id by done. f_equal. apply IH.
Qed.

(** X17. Rules written by [_save_routing_rules] load back with every
    field as it was saved and the predicate derived from the name; rules
    whose predicate is the one their name gives, as the built-in rules',
    load back unchanged.  So a first start without a file, which installs
    and saves the built-in rules, and a restart from the file it wrote
    end with the same rules. *)
Theorem X17_saved_rules_load_back
    self (fresh : RequestRouter.t Any) (mkdir_ok write_ok : bool) :
  routes fresh = [] →
  let file := Parsed (Some (Some <$> _save_routing_rules self)) in
  let loaded := _load_routing_rules file mkdir_ok write_ok fresh in
  let first := _load_routing_rules Missing true true fresh in
  routes loaded.1 = reloaded <$> routes self
  ∧ loaded.2 = None
  ∧ (Forall (λ r, RouteRule.condition r = condition_of_name (RouteRule.name r))
            (routes self) →
     routes loaded.1 = routes self)
  ∧ (routes self = default_rules → routes loaded.1 = default_rules)
  ∧ (routes first.1 = default_rules
     ∧ first.2 = Some (_save_routing_rules first.1)).
Proof.
  intros Hfresh. cbv zeta.
  assert (Hloaded :
    _load_routing_rules (Parsed (Some (Some <$> _save_routing_rules self)))
      mkdir_ok write_ok fresh
    = (foldl (λ self rule_data, _create_rule_from_config rule_data self)
             fresh (saved_rule <$> routes self), None)).
  { unfold _load_routing_rules, _save_routing_rules. cbn [from_option id].
    by rewrite load_entries_good. }
  rewrite Hloaded. cbn [fst snd]. rewrite create_saved_rules, Hfresh.
  cbn [app]. split_and!; [done..| | | |].
  - apply reloaded_named.
  - intros ->. reflexivity.
  - cbn [_load_routing_rules fst]. by rewrite create_default_rules_routes, Hfresh.
  - done.
Qed.

Lemma find_first_twice (rules : list RouteRule.t) context :
  find_first (rules ++ rules) context = find_first rules context.
Proof.
  destruct (find_first rules context) as [rule|] eqn:Hfind.
  - destruct (find_first_Some _ _ _ Hfind)
      as (before & after & Hrules & Hbefore & Hmatch).
    rewrite Hrules at 1. rewrite <- app_assoc. cbn [app].
    by apply find_first_app.
  - apply (find_first_None) in Hfind.
    apply (find_first_None). by apply Forall_app.
Qed.

Lemma route_request_no_route self w context handler_override :
  routes self = [] →
  result (route_request self w context handler_override)
  = Raise (NoRouteFound (RequestContext.request_type context)).
Proof.
  intros Hroutes. unfold route_request. cbn [World.read_time].
  unfold route_request_try, _find_matching_route.
  cbn [routes set_stats]. by rewrite Hroutes.
Qed.

(** X18. What [_load_routing_rules] falls back to, starting from a router
    without rules.  With no file, or a file that cannot be read, every
    request is routed as by the built-in rules, also when the directory
    cannot be created and the built-in rules end up installed twice.  A
    file with no "rules" entry, or an empty one, leaves the router without
    any rule: every request then fails with the no-route exception.  An
    entry that cannot be turned into a rule keeps the rules made before it
    and appends the built-in rules after them. *)
Theorem X18_load_fallbacks
    (fresh : RequestRouter.t Any) (mkdir_ok write_ok : bool) :
  routes fresh = [] →
  (∀ file context,
     file = Missing ∨ file = Unreadable →
     _find_matching_route (_load_routing_rules file mkdir_ok write_ok fresh).1 context
     = find_first default_rules context)
  ∧ routes (_load_routing_rules Missing false write_ok fresh).1
    = default_rules ++ default_rules
  ∧ (∀ rules w context handler_override,
       rules = None ∨ rules = Some [] →
       let loaded := (_load_routing_rules (Parsed rules) mkdir_ok write_ok fresh).1 in
       routes loaded = []
       ∧ result (route_request loaded w context handler_override)
         = Raise (NoRouteFound (RequestContext.request_type context)))
  ∧ (∀ good rest,
       routes (_load_routing_rules (Parsed (Some ((Some <$> good) ++ None :: rest)))
                 mkdir_ok write_ok fresh).1
       = routes (foldl (λ self rule_data, _create_rule_from_config rule_data self)
                       fresh good)
         ++ default_rules).
Proof.
  intros Hfresh. split_and!.
  - intros file context [-> | ->]; unfold _find_matching_route;
      cbn [_load_routing_rules].
    + destruct mkdir_ok; cbn [fst]; rewrite ?create_default_rules_routes, Hfresh;
        cbn [app]; [done|]. apply find_first_twice.
    + cbn [fst]. by rewrite create_default_rules_routes, Hfresh.
  - cbn [_load_routing_rules fst].
    by rewrite !create_default_rules_routes, Hfresh.
  - intros rules w context handler_override [-> | ->]; cbv zeta;
      cbn [_load_routing_rules from_option id load_entries fst];
      (split; [done|by apply route_request_no_route]).
  - intros good rest. cbn [_load_routing_rules from_option id].
    rewrite load_entries_bad. cbn [fst].
    apply create_default_rules_routes.
Qed.

Lemma matches_type_is (ty : RequestType.t) context :
  type_is ty context = Some true ↔ RequestContext.request_type context = ty.
Proof.
  unfold type_is. split.
  - intros [= H]. by apply bool_decide_eq_true in H.
  - intros H. f_equal. by apply bool_decide_eq_true.
Qed.

(** X19. The rule [_create_rule_from_config] makes of an entry is appended
    to the rules under the entry's name ("unknown" without one), and what
    it matches comes from that name alone, the keywords being tried in the
    order chat, search, knowledge, status, admin: a name containing "chat"
    gives a rule that matches exactly the chat requests, whatever else the
    name contains, and so on down the list; a name without any of the five
    keywords, and so an entry without a name, gives a rule that matches
    every request and, standing first, is selected for every request,
    whatever rules follow it. *)
Theorem X19_rule_names_decide_matching (rule_data : RuleData.t) self :
  let name := default "unknown" (RuleData.name rule_data) in
  ∃ rule,
    routes (_create_rule_from_config rule_data self) = routes self ++ [rule]
    ∧ RouteRule.name rule = name
    ∧ (contains "chat" name = true →
       ∀ context, matches rule context
                  ↔ RequestContext.request_type context = RequestType.CHAT)
    ∧ (contains "chat" name = false →
       contains "search" name = true →
       ∀ context, matches rule context
                  ↔ RequestContext.request_type context = RequestType.SEARCH)
    ∧ (contains "chat" name = false →
       contains "search" name = false →
       contains "knowledge" name = true →
       ∀ context, matches rule context
                  ↔ RequestContext.request_type context = RequestType.KNOWLEDGE)
    ∧ (contains "chat" name = false →
       contains "search" name = false →
       contains "knowledge" name = false →
       contains "status" name = true →
       ∀ context, matches rule context
                  ↔ RequestContext.request_type context = RequestType.STATUS)
    ∧ (contains "chat" name = false →
       contains "search" name = false →
       contains "knowledge" name = false →
       contains "status" name = false →
       contains "admin" name = true →
       ∀ context, matches rule context
                  ↔ RequestContext.request_type context = RequestType.ADMIN)
    ∧ (Forall (λ keyword, contains keyword name = false)
              ["chat"; "search"; "knowledge"; "status"; "admin"] →
       (∀ context, matches rule context)
       ∧ (routes self = [] →
          ∀ later context,
            find_first (routes (_create_rule_from_config rule_data self) ++ later)
                       context
            = Some rule))
    ∧ (RuleData.name rule_data = None →
       Forall (λ keyword, contains keyword name = false)
              ["chat"; "search"; "knowledge"; "status"; "admin"]).
Proof.
  cbv zeta. eexists. split; [reflexivity|]. split; [reflexivity|].
  unfold matches. cbn [RouteRule.condition]. unfold condition_of_name.
  split_and!.
  - intros -> context. apply matches_type_is.
  - intros -> -> context. apply matches_type_is.
  - intros -> -> -> context. apply matches_type_is.
  - intros -> -> -> -> context. apply matches_type_is.
  - intros -> -> -> -> -> context. apply matches_type_is.
  - intros Hnone.
    apply Forall_cons in Hnone as [H1 Hnone].
    apply Forall_cons in Hnone as [H2 Hnone].
    apply Forall_cons in Hnone as [H3 Hnone].
    apply Forall_cons in Hnone as [H4 Hnone].
    apply Forall_cons in Hnone as [H5 _].
    rewrite H1, H2, H3, H4, H5. split; [done|].
    intros Hfresh later context.
    cbn [_create_rule_from_config routes set_routes]. rewrite Hfresh.
    cbn [app find_first RouteRule.condition]. unfold condition_of_name.
    by rewrite H1, H2, H3, H4, H5.
  - intros ->. cbn [from_option id]. repeat constructor.
Qed.

(** *** Rate-limit keys *)

(** The last character of a string. *)
Fixpoint last_char (s : string) : option Ascii.ascii :=
  match s with
  | EmptyString => None
  | String c EmptyString => Some c
  | String _ rest => last_char rest
  end.

Lemma last_char_app (s t : string) :
  t ≠ EmptyString → last_char (s +:+ t) = last_char t.
Proof.
  intros Ht. induction s as [|c s IH]; [done|].
  change (String c s +:+ t) with (String c (s +:+ t)).
  destruct (s +:+ t) as [|c' rest] eqn:Happ.
  - destruct s as [|c0 s0]; [destruct (Ht Happ)|discriminate Happ].
  - rewrite <- IH. reflexivity.
Qed.

Lemma string_app_length (s t : string) :
  String.length (s +:+ t) = (String.length s + String.length t)%nat.
Proof.
  induction s as [|c s IH]; [done|].
  change (String c s +:+ t) with (String c (s +:+ t)).
  change (String.length (String c (s +:+ t))) with (S (String.length (s +:+ t))).
  by rewrite IH.
Qed.

Lemma string_app_inv_tail (s1 s2 t : string) :
  s1 +:+ t = s2 +:+ t → s1 = s2.
Proof.
  revert s2. induction s1 as [|c s1 IH]; intros [|c2 s2] Heq; [done| | |].
  - apply (f_equal String.length) in Heq.
    rewrite !string_app_length in Heq. cbn in Heq. lia.
  - apply (f_equal String.length) in Heq.
    rewrite !string_app_length in Heq. cbn in Heq. lia.
  - change (String c (s1 +:+ t) = String c2 (s2 +:+ t)) in Heq.
    injection Heq as -> Heq. f_equal. by apply IH.
Qed.

(** X20. Two requests share a rate-limit key exactly when they have the
    same request type and the same user, where a missing user id, an empty
    one and the user id "anonymous" all count as the user "anonymous". *)
Theorem X20_rate_keys_separate_users_and_types (c1 c2 : RequestContext.t) :
  (rate_key c1 = rate_key c2
   ↔ effective_user c1 = effective_user c2
     ∧ RequestContext.request_type c1 = RequestContext.request_type c2)
  ∧ (∀ c, RequestContext.user_id c = None
          ∨ RequestContext.user_id c = Some ""
          ∨ RequestContext.user_id c = Some "anonymous" →
          effective_user c = "anonymous").
Proof.
  split.
  - change (rate_key c1) with
      (effective_user c1 +:+ ":" +:+ RequestType.value (RequestContext.request_type c1)).
    change (rate_key c2) with
      (effective_user c2 +:+ ":" +:+ RequestType.value (RequestContext.request_type c2)).
    split; [|by intros [-> ->]].
    intros Heq.
    assert (Htype : RequestContext.request_type c1 = RequestContext.request_type c2).
    { apply (f_equal last_char) in Heq.
      rewrite !last_char_app in Heq
        by (by destruct (RequestContext.request_type _)).
      by destruct (RequestContext.request_type c1),
                  (RequestContext.request_type c2). }
    split; [|done]. rewrite Htype in Heq.
    by apply string_app_inv_tail in Heq.
  - intros c [H | [H | H]]; unfold effective_user; by rewrite H.
Qed.

(** *** The handlers of the server application *)

Lemma check_rate_limit_error rule context self w e :
  (check_rate_limit rule context self w).1.1 = Some e →
  ∃ remaining, e = RateLimitExceeded remaining.
Proof.
  unfold check_rate_limit.
  destruct (RouteRule.rate_limit rule) as [limit|]; [|done].
  destruct (limit =? 0); [done|]. cbn [World.read_now].
  destruct (RateLimiter.is_allowed _ _ _ _ _) as [[] rl]; cbn; [done|].
  intros [= <-]. eauto.
Qed.

(** X21. With the built-in rules and the four handlers the server
    application registers, the rule matched by a chat, search, knowledge
    or status request names a registered handler, the one the application
    bound to it, while the rule for admin requests names "handle_admin",
    which the application never registers: an admin request is refused by
    the rate limit or fails with the handler-not-found exception, and
    never reaches a handler. *)
Theorem X21_server_handlers_cover_all_but_admin
    (handle_chat handle_search handle_knowledge handle_status : Handler Any)
    (base : RequestRouter.t Any) context :
  routes base = default_rules →
  handlers base !! "handle_admin" = None →
  let app :=
    ServerApp.register_handlers handle_chat handle_search handle_knowledge
      handle_status base in
  (∃ rule,
     _find_matching_route app context = Some rule
     ∧ resolve_handler rule None app
       = match RequestContext.request_type context with
         | RequestType.CHAT => Some handle_chat
         | RequestType.SEARCH => Some handle_search
         | RequestType.KNOWLEDGE => Some handle_knowledge
         | RequestType.STATUS => Some handle_status
         | RequestType.ADMIN => None
         end)
  ∧ (RequestContext.request_type context = RequestType.ADMIN →
     ∀ w,
       let run := route_request app w context None in
       (result run = Raise (HandlerNotFound "handle_admin")
        ∨ ∃ remaining, result run = Raise (RateLimitExceeded remaining))
       ∧ World.events (world_after run) = World.events w
       ∧ World.awaited (world_after run) = World.awaited w).
Proof.
  intros Hroutes Hadmin. cbv zeta.
  assert (Hadmin' :
    handlers (ServerApp.register_handlers handle_chat handle_search
                handle_knowledge handle_status base) !! "handle_admin" = None).
  { unfold ServerApp.register_handlers, register_handler.
    cbn [handlers set_handlers]. by rewrite 4!lookup_insert_ne by done. }
  split.
  - unfold _find_matching_route, ServerApp.register_handlers, register_handler.
    cbn [routes set_handlers]. rewrite Hroutes.
    unfold default_rules, resolve_handler.
    destruct (RequestContext.request_type context) eqn:Hty;
      cbn [find_first default_rule RouteRule.condition type_is];
      rewrite Hty; cbn [bool_decide decide_rel]; (eexists; split; [reflexivity|]);
      cbn [RouteRule.handler default_rule handlers set_handlers].
    + rewrite 3!lookup_insert_ne by done. apply lookup_insert_eq.
    + rewrite 2!lookup_insert_ne by done. apply lookup_insert_eq.
    + rewrite lookup_insert_ne by done. apply lookup_insert_eq.
    + apply lookup_insert_eq.
    + by rewrite 4!lookup_insert_ne by done.
  - intros Hty w.
    set (app := ServerApp.register_handlers _ _ _ _ base) in *.
    set (rule := default_rule "admin_requests" RequestType.ADMIN "handle_admin" 2 60 10).
    assert (Hfind : _find_matching_route app context = Some rule).
    { unfold _find_matching_route, app, ServerApp.register_handlers, register_handler.
      cbn [routes set_handlers]. rewrite Hroutes. unfold default_rules.
      cbn [find_first default_rule RouteRule.condition type_is].
      by rewrite Hty. }
    destruct (apply_priority_boost_clamped rule context) as (p & Hboost & _);
      [done|].
    unfold route_request. cbn [World.read_time]. unfold route_request_try.
    change (_find_matching_route (set_stats _ app) context)
      with (_find_matching_route app context).
    rewrite Hfind, Hboost.
    pose proof (check_rate_limit_frame rule (RequestContext.set_priority p context)
                  (set_stats (RequestStats.seen context (stats app)) app)
                  (World.read_time w).2) as Hframe.
    pose proof (check_rate_limit_error rule (RequestContext.set_priority p context)
                  (set_stats (RequestStats.seen context (stats app)) app)
                  (World.read_time w).2) as Herror.
    cbn [World.read_time snd] in Hframe, Herror.
    destruct (check_rate_limit rule _ _ _) as [[err self2] w2].
    cbn [fst snd] in Hframe, Herror.
    destruct Hframe as (_ & Hh & _ & Haw & Hev & _).
    destruct err as [e|].
    + destruct (Herror e eq_refl) as [remaining ->].
      cbn. split_and!; [right; eauto|done..].
    + unfold resolve_handler. rewrite Hh.
      cbn [RouteRule.handler rule default_rule handlers set_stats].
      unfold rule at 1. cbn [RouteRule.handler default_rule].
      rewrite Hadmin'. cbn. split_and!; [by left|done..].
Qed.

End RouterFurther.

Lemma X10_witness :
  RequestRouter.result
    (RequestRouter.route_request (Sample.limited_router 2) Sample.world
       (Sample.context RequestType.CHAT Priority.NORMAL) None)
  = Raise (RateLimitExceeded 0).
Proof.
  destruct (X10_rate_limit_rejection (Sample.limited_router 2) Sample.world
              (Sample.context RequestType.CHAT Priority.NORMAL) None
              (Sample.limited_rule 2)
              (Sample.context RequestType.CHAT Priority.NORMAL) 2)
    as (Hresult & _).
  - reflexivity.
  - reflexivity.
  - reflexivity.
  - lia.
  - vm_compute. reflexivity.
  - etrans; [exact Hresult|]. vm_compute. reflexivity.
Defined.

Lemma X11_witness :
  RequestRouter.result
    (RequestRouter.route_request (Sample.limited_router (-1)) Sample.world
       (Sample.context RequestType.CHAT Priority.NORMAL) (Some Sample.echo))
  = Raise (RateLimitExceeded 0).
Proof.
  destruct (X11_negative_limit_rejects_everything (Sample.limited_router (-1))
              Sample.world (Sample.context RequestType.CHAT Priority.NORMAL)
              (Some Sample.echo) (Sample.limited_rule (-1))
              (Sample.context RequestType.CHAT Priority.NORMAL) (-1))
    as (Hresult & _).
  - reflexivity.
  - reflexivity.
  - reflexivity.
  - lia.
  - exact Hresult.
Defined.

Lemma X12_witness :
  RequestRouter.result
    (RequestRouter.route_request (RequestRouter.init (Any := string) 0) Sample.world
       (Sample.context RequestType.CHAT Priority.NORMAL) None)
  = Raise (HandlerNotFound "handle_chat").
Proof.
  destruct (X12_missing_handler_still_consumes_quota
              (RequestRouter.init (Any := string) 0) Sample.world
              (Sample.context RequestType.CHAT Priority.NORMAL)
              Sample.chat_rule
              (Sample.context RequestType.CHAT Priority.NORMAL) 60)
    as (Hresult & _).
  - reflexivity.
  - reflexivity.
  - reflexivity.
  - lia.
  - vm_compute. reflexivity.
  - reflexivity.
  - exact Hresult.
Defined.

Lemma X15_witness :
  RequestStats.breakdown_total
    (RequestStats.requests_by_type (RequestRouter.stats Sample.half_successful))
  = RequestStats.total_requests (RequestRouter.stats Sample.half_successful).
Proof.
  destruct (X15_counters_add_up Sample.half_successful) as (Htype & _).
  - apply RequestRouter.reachable_route_request.
    apply RequestRouter.reachable_route_request.
    apply RequestRouter.reachable_register_handler.
    apply (RequestRouter.reachable_fresh _ 0). reflexivity.
  - exact Htype.
Defined.

Lemma X17_witness :
  RequestRouter.routes
    (RequestRouter._load_routing_rules
       (RequestRouter.Parsed
          (Some (Some <$> RequestRouter._save_routing_rules (Sample.router Sample.echo))))
       true true Sample.without_rules).1
  = RequestRouter.default_rules.
Proof.
  destruct (X17_saved_rules_load_back (Sample.router Sample.echo)
              Sample.without_rules true true) as (_ & _ & _ & Hdefault & _).
  - reflexivity.
  - apply Hdefault. reflexivity.
Defined.

Lemma X18_witness :
  RequestRouter.routes
    (RequestRouter._load_routing_rules RequestRouter.Missing false true
       Sample.without_rules).1
  = RequestRouter.default_rules ++ RequestRouter.default_rules.
Proof.
  destruct (X18_load_fallbacks Sample.without_rules false true)
    as (_ & Htwice & _).
  - reflexivity.
  - exact Htwice.
Defined.

Lemma X21_witness :
  ∃ rule,
    RequestRouter._find_matching_route Sample.server_router
      (Sample.context RequestType.SEARCH Priority.NORMAL) = Some rule
    ∧ RequestRouter.resolve_handler rule None Sample.server_router
      = Some Sample.flaky.
Proof.
  destruct (X21_server_handlers_cover_all_but_admin Sample.echo Sample.flaky
              Sample.broken Sample.sleepy (RequestRouter.init 0)
              (Sample.context RequestType.SEARCH Priority.NORMAL))
    as (Hcovered & _).
  - reflexivity.
  - reflexivity.
  - exact Hcovered.
Defined.

Lemma X19_witness :
  ∃ rule,
    RequestRouter.routes
      (RequestRouter._create_rule_from_config Sample.admin_chat_entry
         Sample.without_rules)
    = [rule]
    ∧ RouteRule.name rule = "admin_chat_requests"
    ∧ (RequestRouter.matches rule (Sample.context RequestType.CHAT Priority.NORMAL)
       ↔ RequestType.CHAT = RequestType.CHAT)
    ∧ (RequestRouter.matches rule (Sample.context RequestType.ADMIN Priority.NORMAL)
       ↔ RequestType.ADMIN = RequestType.CHAT).
Proof.
  destruct (X19_rule_names_decide_matching Sample.admin_chat_entry
              Sample.without_rules)
    as (rule & Hroutes & Hname & Hchat & _).
  exists rule. split_and!.
  - exact Hroutes.
  - exact Hname.
  - apply (Hchat eq_refl (Sample.context RequestType.CHAT Priority.NORMAL)).
  - apply (Hchat eq_refl (Sample.context RequestType.ADMIN Priority.NORMAL)).
Defined.
